(** * vardbg video renderer: [FrameRenderer] of [video_writer/renderer.py]

    A shallow embedding of the frame renderer and the properties of its
    viewport, layout, frame life cycle and variable panels.

    Numbers.  Python [int] is [Z].  A Python [float] is the rational it
    denotes ([Q]), and an operation that yields a float rounds its exact
    result to binary64, to nearest with ties to even ([Py.b64]): the line
    height, the quotients by it, the context of the viewport and the sums
    with it, the product of intro time and frame rate.  Sums, differences
    and halves of pixel counts are exact in binary64 and are written
    without rounding, as is the quotient of the code width by the glyph
    width, which [round] takes to the same integer either way for widths
    below 2^52.  Infinities
    and NaN are not modelled: results stay below 2^1024 in magnitude.  The
    numbers of a configuration are integers or binary64 values.

    Effects.  A method of the renderer is a function of the renderer object
    and of the outside world (the events seen by the video encoder); it
    returns a value or raises.

    Collaborators.  The configuration, the fonts, the painter ([TextPainter]),
    the value formatter ([irepr]), the encoders and the pygments theme live
    outside [renderer.py].  The configuration is a record of its attributes;
    a frame is the list of what was drawn on it; a painter is the list of
    calls it received; font metrics, the positions the painter returns and
    the theme are parameters ([Backend]). *)

From Stdlib Require Import ZArith QArith Qround Qabs Qpower Lqa Lia List String Ascii Bool
  DecimalString.
Import ListNotations.

Local Open Scope Z_scope.

(** ** Python numerics *)

Module Py.

(** [round(x)] on a float: to the nearest integer, ties to the even one. *)
Definition round (x : Q) : Z :=
  let f := Qfloor x in
  match Qcompare (x - inject_Z f)%Q (1 # 2)%Q with
  | Lt => f
  | Gt => f + 1
  | Eq => if Z.even f then f else f + 1
  end.

(** [int(x)] on a float: truncation toward zero. *)
Definition int (x : Q) : Z :=
  if Qle_bool 0%Q x then Qfloor x else Qceiling x.

(** [x // y] on numbers: the floor of the quotient. *)
Definition floordiv (x y : Q) : Z := Qfloor (x / y)%Q.

(** Binary64.  [pow2 e] is [2^e]; [ilog2 x] the floor of the binary
    logarithm of a positive [x]; [expo x] the exponent of the last place of
    the binary64 nearest to [x]: 53 significant bits, and the last place no
    finer than [2^-1074], where the subnormal numbers end. *)
Definition pow2 (e : Z) : Q := (2 ^ e)%Q.

Definition ilog2 (x : Q) : Z :=
  let k := Z.log2 (Qnum x) - Z.log2 (Zpos (Qden x)) in
  if Qle_bool (pow2 k) x then k else k - 1.

Definition expo (x : Q) : Z := Z.max (ilog2 (Qabs x) - 52) (-1074).

(** The binary64 nearest to [x], ties to the even significand. *)
Definition b64 (x : Q) : Q :=
  let e := expo x in (inject_Z (round (x / pow2 e)) * pow2 e)%Q.

(** [x + y], [x - y], [x * y] and [x / y] with a float result. *)
Definition fadd (x y : Q) : Q := b64 (x + y).
Definition fsub (x y : Q) : Q := b64 (x - y).
Definition fmul (x y : Q) : Q := b64 (x * y).
Definition fdiv (x y : Q) : Q := b64 (x / y).

(** [max(x, y)] and [min(x, y)]: the first argument unless the second is
    strictly beyond it. *)
Definition max (x y : Q) : Q := if Qle_bool y x then x else y.
Definition min (x y : Q) : Q := if Qle_bool x y then x else y.

(** Truthiness of a number and of a string. *)
Definition truthy_num (x : Q) : bool := negb (Qeq_bool x 0%Q).
Definition truthy_str (s : string) : bool :=
  match s with EmptyString => false | String _ _ => true end.

(** Normalisation of one slice bound against a sequence of length [len]:
    a negative bound counts from the end, and bounds are clipped to
    [0..len]. *)
Definition slice_index (len i : Z) : Z :=
  if i <? 0 then Z.max 0 (i + len) else Z.min i len.

(** [l[start:stop]] *)
Definition slice {A : Type} (l : list A) (start stop : Z) : list A :=
  let len := Z.of_nat (List.length l) in
  let s := slice_index len start in
  let e := slice_index len stop in
  firstn (Z.to_nat (e - s)) (skipn (Z.to_nat s) l).

(** [l[start:]] *)
Definition slice_from {A : Type} (l : list A) (start : Z) : list A :=
  let len := Z.of_nat (List.length l) in
  skipn (Z.to_nat (slice_index len start)) l.

(** [enumerate(l)] with indices starting at [i]. *)
Fixpoint enumerate_from {A : Type} (i : Z) (l : list A) : list (Z * A) :=
  match l with
  | [] => []
  | x :: t => (i, x) :: enumerate_from (i + 1) t
  end.

Definition enumerate {A : Type} (l : list A) : list (Z * A) :=
  enumerate_from 0 l.

(** [sep.join(l)] *)
Fixpoint join (sep : string) (l : list string) : string :=
  match l with
  | [] => EmptyString
  | [x] => x
  | x :: t => (x ++ sep ++ join sep t)%string
  end.

End Py.

(** ** The code viewport of [draw_code] *)

Section Viewport.

Context {Line : Type}.

(** [hlines]: every line paired with the flag "is the current line". *)
Definition hlines (lines : list Line) (cur_idx : Z) : list (Line * bool) :=
  map (fun p => (snd p, fst p =? cur_idx)) (Py.enumerate lines).

(** The start and end display indexes before the adjustment at the top of
    the file.  [_body_rows] is a float, so the context and the two sums are
    floats and each is rounded before [round] sees it. *)
Definition naive_window (_body_rows : Q) (cur_idx : Z) : Z * Z :=
  let ctx_side_lines := Py.fdiv (Py.fsub _body_rows 1) 2 in
  (Py.round (Py.fsub (inject_Z cur_idx) ctx_side_lines),
   Py.round (Py.fadd (inject_Z cur_idx) ctx_side_lines)).

(** The indexes that slice [hlines]. *)
Definition window (_body_rows : Q) (cur_line : Z) : Z * Z :=
  let cur_idx := cur_line - 1 in
  let '(start_idx, end_idx) := naive_window _body_rows cur_idx in
  if start_idx <? 0
  then let start_extra := Z.abs start_idx in (0, end_idx + start_extra)
  else (start_idx, end_idx).

(** [display_lines] of [draw_code]. *)
Definition display_lines (_body_rows : Q) (lines : list Line) (cur_line : Z)
  : list (Line * bool) :=
  let cur_idx := cur_line - 1 in
  let '(start_idx, end_idx) := window _body_rows cur_line in
  Py.slice (hlines lines cur_idx) start_idx end_idx.

End Viewport.


(** ** Strings and paths *)

Module Str.

Local Open Scope string_scope.

Definition nl : string := String (ascii_of_nat 10) "".

(** U+2022 (bullet) in UTF-8. *)
Definition bullet : string :=
  String (ascii_of_nat 226) (String (ascii_of_nat 128) (String (ascii_of_nat 162) "")).

(** [s.lower()] on a string of ASCII characters: the letters [A] to [Z] are
    lowered and every other byte is left as it is.  Python also lowers the
    letters outside ASCII; [is_ascii] marks the strings on which the two
    agree. *)
Definition lower_ascii (c : ascii) : ascii :=
  let n := nat_of_ascii c in
  if (65 <=? n)%nat && (n <=? 90)%nat then ascii_of_nat (n + 32) else c.

Fixpoint lower (s : string) : string :=
  match s with
  | "" => ""
  | String c t => String (lower_ascii c) (lower t)
  end.

(** [s[1:]] *)
Definition tail (s : string) : string :=
  match s with "" => "" | String _ t => t end.

(** The components of a path between slashes. *)
Fixpoint split_slash (cur s : string) : list string :=
  match s with
  | "" => [cur]
  | String c t =>
      if Ascii.eqb c "/" then cur :: split_slash "" t
      else split_slash (cur ++ String c "") t
  end.

(** [PurePosixPath(path).name]: the last component, empty components and
    single dots dropped. *)
Definition name (path : string) : string :=
  let parts :=
    filter (fun q => negb (String.eqb q "" || String.eqb q ".")) (split_slash "" path) in
  last parts "".

(** [s.rfind(c)], counted from index [i] of the first character. *)
Fixpoint rfind (c : ascii) (i : nat) (s : string) : option nat :=
  match s with
  | "" => None
  | String d t =>
      match rfind c (S i) t with
      | Some j => Some j
      | None => if Ascii.eqb d c then Some i else None
      end
  end.

(** [Path(path).suffix]: from the last dot of the name on, unless that dot
    is the first or the last character of the name. *)
Definition suffix (path : string) : string :=
  let n := name path in
  match rfind "." 0 n with
  | Some i =>
      if (0 <? i)%nat && (i <? String.length n - 1)%nat
      then substring i (String.length n - i) n
      else ""
  | None => ""
  end.

(** Text of ASCII characters only, where characters and bytes are the same. *)
Fixpoint is_ascii (s : string) : bool :=
  match s with
  | "" => true
  | String c t => (nat_of_ascii c <? 128)%nat && is_ascii t
  end.

(** U+2014 (em dash) in UTF-8. *)
Definition em_dash : string :=
  String (ascii_of_nat 226) (String (ascii_of_nat 128) (String (ascii_of_nat 148) "")).

(** [str(n)] of an [int]: its decimal digits, after a minus sign when it is
    negative. *)
Definition of_int (n : Z) : string := NilZero.string_of_int (Z.to_int n).

End Str.

(** ** Data *)

Inductive Color := RGBA (r g b a : Z).

Record FontSpec := { font_file : string; font_size : Z }.

Definition Point : Type := Q * Q.

(** Values of the traced program; only the value formatter looks inside. *)
#[warnings="-register-all"]
Inductive Value :=
| VNone
| VInt (z : Z)
| VStr (s : string)
| VList (l : list Value).

(** The arguments a [TextPainter] is constructed with. *)
Record TextPainter := {
  tp_x : Q;
  tp_y : Q;
  tp_cols : Z;
  tp_rows : Z;
  tp_x_end : option Q;
  tp_show_truncate : option bool
}.

(** The highlighting arguments of [irepr]. *)
Record Highlight := {
  hl_target : Value;
  hl_bold : bool;
  hl_color : Color;
  hl_return_pos : string
}.

(** What a painter is asked to do: [write], [new_line], and [irepr] run on
    it. *)
Inductive PainterCall :=
| PWrite (text : string) (color : option Color) (bold : bool) (bg_color : option Color)
| PNewLine
| PIrepr (value : Value) (hl : option Highlight).

(** What is drawn on a frame, in order. *)
Inductive DrawOp :=
| DLine (xy : list Point) (fill : Color) (width : Z)
| DText (xy : Point) (text : string) (font : FontSpec) (fill : option Color)
| DPaint (p : TextPainter) (call : PainterCall).

(** A frame: [Image.new("RGB", (w, h), bg)] and what was drawn on it. *)
Record Canvas := {
  cv_w : Q;
  cv_h : Q;
  cv_bg : Color;
  cv_ops : list DrawOp
}.

(** The video encoders, as constructed. *)
Inductive Encoder :=
| OpenCVEncoder (path fourcc : string) (fps w h : Q)
| GIFEncoder (path : string) (fps : Q)
| WebPEncoder (path : string) (fps : Q).

Module Config.
Record t := {
  w : Q;
  h : Q;
  fps : Q;
  var_x : Q;
  out_y : Q;
  ovar_y : Q;
  sect_padding : Q;
  head_padding : Q;
  line_height : Q;
  bg : Color;
  fg_body : Color;
  fg_heading : Color;
  fg_watermark : Color;
  highlight : Color;
  red : Color;
  green : Color;
  blue : Color;
  font_body : FontSpec;
  font_body_bold : FontSpec;
  font_caption : FontSpec;
  font_heading : FontSpec;
  font_intro : FontSpec;
  intro_text : option string;
  intro_time : Q;
  watermark : bool
}.
End Config.

(** One tracked variable with its recorded values. *)
Record Var := { var_name : string }.
Record VarValues := { ignored : bool; values : list Value }.

Module VarState.
Record t := {
  name : string;
  action : string;
  color : Color;
  text : string;
  value : Value;
  ref : option string;
  other_history : list (Var * VarValues)
}.
End VarState.

(** Token kinds and the highlighting theme. *)
Definition Token : Type := string.
Record StyleParams := {
  sp_color : option string;
  sp_bold : bool;
  sp_italic : bool;
  sp_underline : bool
}.
Record Style := { st_color : option Color; st_bold : bool }.

(** The sizes and positions computed by [calc_sizes]. *)
Record Sizes := {
  line_height : Q;
  body_cols : Z;
  _body_rows : Q;
  body_rows : Z;
  out_x : Q;
  out_y : Q;
  out_cols : Z;
  out_rows : Z;
  vars_x : Q;
  vars_y : Q;
  vars_cols : Z;
  vars_rows : Z;
  ovars_x : Q;
  ovars_y : Q;
  ovars_cols : Z;
  ovars_rows : Z
}.

(** The renderer object.  [frame] stands for both [self.frame] and the
    drawing context [self.draw] bound to it: [new_frame] sets the two
    together and drawing through the one changes the other.  The position
    pairs [last_var_x, last_var_y] and [ref_var_x, ref_var_y] are always
    assigned together. *)
Record FrameRenderer := {
  cfg : Config.t;
  encoder : Encoder;
  frame : option Canvas;
  body_font : FontSpec;
  body_bold_font : FontSpec;
  caption_font : FontSpec;
  head_font : FontSpec;
  intro_font : FontSpec;
  sizes_populated : bool;
  sizes : option Sizes;
  last_var : option Point;
  ref_var : option Point
}.

Definition set_frame (f : option Canvas) (r : FrameRenderer) : FrameRenderer :=
  {| cfg := cfg r; encoder := encoder r; frame := f;
     body_font := body_font r; body_bold_font := body_bold_font r;
     caption_font := caption_font r; head_font := head_font r;
     intro_font := intro_font r;
     sizes_populated := sizes_populated r; sizes := sizes r;
     last_var := last_var r; ref_var := ref_var r |}.

Definition set_sizes (z : Sizes) (r : FrameRenderer) : FrameRenderer :=
  {| cfg := cfg r; encoder := encoder r; frame := frame r;
     body_font := body_font r; body_bold_font := body_bold_font r;
     caption_font := caption_font r; head_font := head_font r;
     intro_font := intro_font r;
     sizes_populated := sizes_populated r; sizes := Some z;
     last_var := last_var r; ref_var := ref_var r |}.

Definition set_sizes_populated (b : bool) (r : FrameRenderer) : FrameRenderer :=
  {| cfg := cfg r; encoder := encoder r; frame := frame r;
     body_font := body_font r; body_bold_font := body_bold_font r;
     caption_font := caption_font r; head_font := head_font r;
     intro_font := intro_font r;
     sizes_populated := b; sizes := sizes r;
     last_var := last_var r; ref_var := ref_var r |}.

Definition set_last_var (p : Point) (r : FrameRenderer) : FrameRenderer :=
  {| cfg := cfg r; encoder := encoder r; frame := frame r;
     body_font := body_font r; body_bold_font := body_bold_font r;
     caption_font := caption_font r; head_font := head_font r;
     intro_font := intro_font r;
     sizes_populated := sizes_populated r; sizes := sizes r;
     last_var := Some p; ref_var := ref_var r |}.

Definition set_ref_var (p : Point) (r : FrameRenderer) : FrameRenderer :=
  {| cfg := cfg r; encoder := encoder r; frame := frame r;
     body_font := body_font r; body_bold_font := body_bold_font r;
     caption_font := caption_font r; head_font := head_font r;
     intro_font := intro_font r;
     sizes_populated := sizes_populated r; sizes := sizes r;
     last_var := last_var r; ref_var := Some p |}.

(** ** Effects: the renderer object, the encoder's world, exceptions *)

Inductive exn :=
| ValueError (msg : string)
| TypeError
| AttributeError
| KeyError
| ZeroDivisionError.

Inductive Res (A : Type) :=
| Ok (a : A)
| Raise (e : exn).
Arguments Ok {A} a.
Arguments Raise {A} e.

(** What the outside sees: an encoder is constructed, receives a frame, is
    stopped. *)
Inductive Event :=
| EvOpen (e : Encoder)
| EvWrite (c : Canvas)
| EvStop.

Definition World : Type := list Event.

Definition M (A : Type) : Type :=
  FrameRenderer -> World -> Res A * FrameRenderer * World.

Definition ret {A : Type} (a : A) : M A := fun r wd => (Ok a, r, wd).

Definition raise {A : Type} (e : exn) : M A := fun r wd => (Raise e, r, wd).

Definition bind {A B : Type} (m : M A) (k : A -> M B) : M B :=
  fun r wd =>
    match m r wd with
    | (Ok a, r', wd') => k a r' wd'
    | (Raise e, r', wd') => (Raise e, r', wd')
    end.

Definition get : M FrameRenderer := fun r wd => (Ok r, r, wd).

Definition modify (f : FrameRenderer -> FrameRenderer) : M unit :=
  fun r wd => (Ok tt, f r, wd).

Definition emit (e : Event) : M unit := fun r wd => (Ok tt, r, wd ++ [e]).

Declare Scope monad_scope.
Delimit Scope monad_scope with monad.
Notation "x <- c1 ;; c2" := (bind c1 (fun x => c2))
  (at level 61, c1 at next level, right associativity) : monad_scope.
Notation "' pat <- c1 ;; c2" := (bind c1 (fun x => match x with pat => c2 end))
  (at level 61, pat pattern, c1 at next level, right associativity) : monad_scope.
Notation "c1 ;; c2" := (bind c1 (fun _ => c2))
  (at level 61, right associativity) : monad_scope.
Local Open Scope monad_scope.

(** [for x in l: s = body(s, x)] *)
Fixpoint for_fold {A S : Type} (body : S -> A -> M S) (l : list A) (s : S) : M S :=
  match l with
  | [] => ret s
  | x :: t => s' <- body s x ;; for_fold body t s'
  end.

(** [for _ in range(n): body] *)
Fixpoint for_range (n : nat) (body : M unit) : M unit :=
  match n with
  | O => ret tt
  | S k => body ;; for_range k body
  end.

(** [x / y] where the quotient of two pixel counts goes straight to [round]:
    the exact quotient. *)
Definition div (x y : Q) : M Q :=
  if Qeq_bool y 0%Q then raise ZeroDivisionError else ret (x / y)%Q.

(** [x / y] with a float result. *)
Definition fdiv (x y : Q) : M Q :=
  if Qeq_bool y 0%Q then raise ZeroDivisionError else ret (Py.fdiv x y).

(** [x // y] *)
Definition floordiv (x y : Q) : M Z :=
  if Qeq_bool y 0%Q then raise ZeroDivisionError else ret (Py.floordiv x y).

(** An attribute that is still [None] where a number is needed. *)
Definition need {A : Type} (o : option A) : M A :=
  match o with
  | Some a => ret a
  | None => raise TypeError
  end.

(** ** The collaborators outside this file

    [textsize] is the font measurement of the drawing context;
    [call_result p calls] is what the last call of [calls] returns on a
    painter constructed as [p] that received [calls] in order (the end
    position of a [write], the position of the highlighted run of an
    [irepr] with [return_pos]); [monokai] is the theme as the formatter
    enumerates it. *)
Class Backend := {
  textsize : FontSpec -> string -> Z * Z;
  call_result : TextPainter -> list PainterCall -> Point;
  monokai : list (Token * StyleParams)
}.

(** ** Styles *)

Definition hex_digit (c : ascii) : option Z :=
  let n := Z.of_nat (nat_of_ascii c) in
  if (48 <=? n) && (n <=? 57) then Some (n - 48)
  else if (97 <=? n) && (n <=? 102) then Some (n - 87)
  else if (65 <=? n) && (n <=? 70) then Some (n - 55)
  else None.

(** White space as [int] strips it from an ASCII string: tab to carriage
    return and the blank. *)
Definition is_space (c : ascii) : bool :=
  let n := Z.of_nat (nat_of_ascii c) in
  ((9 <=? n) && (n <=? 13)) || (n =? 32).

Fixpoint lstrip (s : string) : string :=
  match s with
  | EmptyString => s
  | String c t => if is_space c then lstrip t else s
  end.

Fixpoint all_space (s : string) : bool :=
  match s with
  | EmptyString => true
  | String c t => is_space c && all_space t
  end.

(** The digits of a literal, single underscores allowed between them;
    [last] tells whether anything was read and whether it was a digit.
    Returns the value and what follows the digits. *)
Fixpoint int16_digits (acc : Z) (last : option bool) (s : string) : option (Z * string) :=
  let finish := match last with Some true => Some (acc, s) | _ => None end in
  match s with
  | EmptyString => finish
  | String c t =>
      match hex_digit c with
      | Some d => int16_digits (16 * acc + d) (Some true) t
      | None =>
          if Ascii.eqb c "_"
          then match last with
               | Some true => int16_digits acc (Some false) t
               | _ => None
               end
          else finish
      end
  end.

Definition int16_sign (s : string) : bool * string :=
  match s with
  | String c t =>
      if Ascii.eqb c "+" then (false, t)
      else if Ascii.eqb c "-" then (true, t) else (false, s)
  | EmptyString => (false, s)
  end.

(** The prefix [0x] or [0X], and one underscore after it. *)
Definition int16_prefix (s : string) : string :=
  match s with
  | String c (String x t) =>
      if Ascii.eqb c "0" && (Ascii.eqb x "x" || Ascii.eqb x "X")
      then match t with
           | String u t' => if Ascii.eqb u "_" then t' else t
           | EmptyString => t
           end
      else s
  | _ => s
  end.

(** [int(s, 16)] on an ASCII string: white space around, a sign, the prefix,
    then hexadecimal digits. *)
Definition int16 (s : string) : Res Z :=
  let '(neg, s1) := int16_sign (lstrip s) in
  match int16_digits 0 None (int16_prefix s1) with
  | Some (v, rest) =>
      if all_space rest then Ok (if neg then - v else v)
      else Raise (ValueError "invalid literal for int() with base 16")
  | None => Raise (ValueError "invalid literal for int() with base 16")
  end.

Definition parse_hex_color (s : string) : Res Color :=
  match int16 (substring 0 2 s) with
  | Raise e => Raise e
  | Ok r =>
      match int16 (substring 2 2 s) with
      | Raise e => Raise e
      | Ok g =>
          match int16 (substring 4 2 s) with
          | Raise e => Raise e
          | Ok b => Ok (RGBA r g b 255)
          end
      end
  end.

(** The dictionary of [load_style]; a later entry for a token hides an
    earlier one. *)
Fixpoint load_style_from (styles : list (Token * Style)) (style : list (Token * StyleParams))
  : Res (list (Token * Style)) :=
  match style with
  | [] => Ok styles
  | (token, params) :: rest =>
      let bold := sp_bold params || sp_italic params || sp_underline params in
      match sp_color params with
      | Some c =>
          if Py.truthy_str c then
            match parse_hex_color c with
            | Ok col => load_style_from ((token, {| st_color := Some col; st_bold := bold |}) :: styles) rest
            | Raise e => Raise e
            end
          else load_style_from ((token, {| st_color := None; st_bold := bold |}) :: styles) rest
      | None => load_style_from ((token, {| st_color := None; st_bold := bold |}) :: styles) rest
      end
  end.

Definition load_style (style : list (Token * StyleParams)) : Res (list (Token * Style)) :=
  load_style_from [] style.

Fixpoint lookup_style (styles : list (Token * Style)) (token : Token) : option Style :=
  match styles with
  | [] => None
  | (k, v) :: rest => if String.eqb k token then Some v else lookup_style rest token
  end.

(** ** The renderer *)

Section Renderer.

Context {B : Backend}.

Definition lift {A : Type} (x : Res A) : M A :=
  match x with
  | Ok a => ret a
  | Raise e => raise e
  end.

(** A drawing call on [self.draw]. *)
Definition draw_op (op : DrawOp) : M unit :=
  fun r wd =>
    match frame r with
    | Some c =>
        (Ok tt,
         set_frame (Some {| cv_w := cv_w c; cv_h := cv_h c; cv_bg := cv_bg c;
                            cv_ops := cv_ops c ++ [op] |}) r,
         wd)
    | None => (Raise AttributeError, r, wd)
    end.

(** [self.draw.textsize(text, font=font)] *)
Definition draw_textsize (text : string) (font : FontSpec) : M (Z * Z) :=
  fun r wd =>
    match frame r with
    | Some _ => (Ok (textsize font text), r, wd)
    | None => (Raise AttributeError, r, wd)
    end.

(** A painter in use: how it was constructed and what it was asked so far. *)
Record Painter := { box : TextPainter; calls : list PainterCall }.

Definition new_painter (x y : Q) (cols rows : Z) (x_end : option Q) (show_truncate : option bool)
  : Painter :=
  {| box := {| tp_x := x; tp_y := y; tp_cols := cols; tp_rows := rows;
               tp_x_end := x_end; tp_show_truncate := show_truncate |};
     calls := [] |}.

(** A call on a painter draws on the frame and returns a position. *)
Definition painter_call (p : Painter) (c : PainterCall) : M (Painter * Point) :=
  let cs := calls p ++ [c] in
  draw_op (DPaint (box p) c) ;;
  ret ({| box := box p; calls := cs |}, call_result (box p) cs).

Definition painter_write (p : Painter) (text : string) (color : option Color) (bold : bool)
    (bg_color : option Color) : M (Painter * Point) :=
  painter_call p (PWrite text color bold bg_color).

Definition calc_sizes : M unit :=
  r <- get ;;
  let c := cfg r in
  '(w, h) <- draw_textsize "A" (body_font r) ;;
  '(hw, hh) <- draw_textsize "A" (head_font r) ;;
  '(_, mh) <- draw_textsize "`^Ag" (body_font r) ;;
  '(_, ch) <- draw_textsize "1p" (caption_font r) ;;
  let line_height := Py.fmul (inject_Z mh) (Config.line_height c) in
  q <- div (Config.var_x c - Config.sect_padding c * 2)%Q (inject_Z w) ;;
  let body_cols := Py.round q in
  _body_rows <- fdiv (Config.out_y c - Config.sect_padding c * 2 - inject_Z ch)%Q line_height ;;
  let body_rows := Py.int _body_rows in
  let out_x := Config.sect_padding c in
  let out_y := (Config.out_y c + Config.head_padding c * 2 + inject_Z hh)%Q in
  let out_cols := body_cols in
  q <- fdiv (Config.h c - out_y)%Q line_height ;;
  let out_rows := Py.round q in
  let vars_x := (Config.var_x c + Config.sect_padding c)%Q in
  let vars_y := (Config.head_padding c * 2 + inject_Z hh)%Q in
  vars_cols <- floordiv (Config.w c - Config.var_x c - Config.sect_padding c * 2)%Q (inject_Z w) ;;
  q <- fdiv (Config.ovar_y c - Config.head_padding c * 2 - inject_Z hh)%Q line_height ;;
  let vars_rows := Py.int q in
  let ovars_x := vars_x in
  let ovars_y := (Config.ovar_y c + vars_y)%Q in
  let ovars_cols := vars_cols in
  let ovars_h := (Config.h c - Config.ovar_y c)%Q in
  q <- fdiv (ovars_h - Config.sect_padding c * 2)%Q line_height ;;
  let ovars_rows := Py.int q in
  modify (set_sizes
    {| line_height := line_height; body_cols := body_cols;
       _body_rows := _body_rows; body_rows := body_rows;
       out_x := out_x; out_y := out_y; out_cols := out_cols; out_rows := out_rows;
       vars_x := vars_x; vars_y := vars_y; vars_cols := vars_cols; vars_rows := vars_rows;
       ovars_x := ovars_x; ovars_y := ovars_y; ovars_cols := ovars_cols;
       ovars_rows := ovars_rows |}).

Definition RED : Z := 0.
Definition GREEN : Z := 1.
Definition BLUE : Z := 2.

Definition get_color (r : FrameRenderer) (col : Z) : Color :=
  if col =? RED then Config.red (cfg r)
  else if col =? GREEN then Config.green (cfg r)
  else Config.blue (cfg r).

Definition draw_text_center (x y : Q) (text : string) (font : FontSpec) (color : Color) : M unit :=
  '(w, h) <- draw_textsize text font ;;
  draw_op (DText (x - inject_Z w / 2, y - inject_Z h / 2)%Q text font (Some color)).

Definition new_frame : M unit :=
  modify (fun r =>
    set_frame (Some {| cv_w := Config.w (cfg r); cv_h := Config.h (cfg r);
                       cv_bg := Config.bg (cfg r); cv_ops := [] |}) r).

Definition start_frame : M unit :=
  new_frame ;;
  r <- get ;;
  let c := cfg r in
  draw_op (DLine [(0%Q, Config.out_y c); (Config.var_x c, Config.out_y c)] (Config.fg_body c) 1) ;;
  let out_center_x := (Config.var_x c / 2)%Q in
  let out_y := (Config.out_y c + Config.head_padding c)%Q in
  draw_text_center out_center_x out_y "Output" (head_font r) (Config.fg_heading c) ;;
  draw_op (DLine [(Config.var_x c, 0%Q); (Config.var_x c, Config.h c)] (Config.fg_body c) 1) ;;
  let var_center_x := (Config.var_x c + ((Config.w c - Config.var_x c) / 2))%Q in
  draw_text_center var_center_x (Config.head_padding c) "Last Variable" (head_font r)
    (Config.fg_heading c) ;;
  draw_op (DLine [(Config.var_x c, Config.ovar_y c); (Config.w c, Config.ovar_y c)]
             (Config.fg_body c) 1) ;;
  let ovar_label_y := (Config.ovar_y c + Config.head_padding c)%Q in
  draw_text_center var_center_x ovar_label_y "Other Variables" (head_font r)
    (Config.fg_heading c) ;;
  if negb (sizes_populated r)
  then calc_sizes ;; modify (set_sizes_populated true)
  else ret tt.

Definition WATERMARK : string := "Generated by vardbg".

Definition draw_watermark : M unit :=
  r <- get ;;
  let x := (Config.w (cfg r) - Config.sect_padding (cfg r))%Q in
  let y := (Config.h (cfg r) - Config.sect_padding (cfg r))%Q in
  '(w, h) <- draw_textsize WATERMARK (caption_font r) ;;
  let x := (x - inject_Z w)%Q in
  let y := (y - inject_Z h)%Q in
  draw_op (DText (x, y) WATERMARK (caption_font r) (Some (Config.fg_watermark (cfg r)))).

(** A painter is placed with the sizes of [calc_sizes]; before they are
    known the attributes are [None] and no number can be taken from them. *)
Definition draw_code (lines : list (list (Token * string))) (cur_line : Z) : M unit :=
  r <- get ;;
  z <- need (sizes r) ;;
  let display := display_lines (_body_rows z) lines cur_line in
  let x_start := Config.sect_padding (cfg r) in
  let y_start := (Config.sect_padding (cfg r) + line_height z)%Q in
  let x_end := (Config.var_x (cfg r) - Config.sect_padding (cfg r))%Q in
  let painter := new_painter x_start y_start (body_cols z) (body_rows z) (Some x_end) (Some false) in
  styles <- lift (load_style monokai) ;;
  for_fold (fun p (hl : list (Token * string) * bool) =>
      let '(line, highlighted) := hl in
      let bg_color := if highlighted then Some (Config.highlight (cfg r)) else None in
      for_fold (fun p (tk : Token * string) =>
          let '(token, text) := tk in
          match lookup_style styles token with
          | Some st =>
              '(p', _) <- painter_write p text (st_color st) (st_bold st) bg_color ;;
              ret p'
          | None => raise KeyError
          end) line p)
    display painter ;;
  ret tt.

(** The lines [draw_output] keeps: [lines[-out_rows:]]. *)
Definition output_lines (out_rows : Z) (lines : list string) : list string :=
  Py.slice_from lines (- out_rows).

Definition draw_output (lines : list string) : M unit :=
  r <- get ;;
  z <- need (sizes r) ;;
  let lines := output_lines (out_rows z) lines in
  let painter := new_painter (out_x z) (out_y z) (out_cols z) (out_rows z) None None in
  painter_write painter (Py.join Str.nl lines) None false None ;;
  ret tt.

(** The caption of [draw_exec]; [cur], [avg] and [total] are the texts the
    f-string puts in for the three times. *)
Definition exec_text (nr_times : Z) (cur avg total : string) : string :=
  let plural := if nr_times =? 1 then ""%string else "s"%string in
  ("Line executed " ++ Str.of_int nr_times ++ " time" ++ plural ++ " " ++ Str.em_dash
    ++ " current time elapsed: " ++ cur ++ ", average: " ++ avg ++ ", total: " ++ total)%string.

Definition draw_exec (nr_times : Z) (cur avg total : string) : M unit :=
  let text := exec_text nr_times cur avg total in
  r <- get ;;
  '(_, h) <- draw_textsize text (caption_font r) ;;
  let x := Config.sect_padding (cfg r) in
  let y := (Config.out_y (cfg r) - Config.sect_padding (cfg r) - inject_Z h)%Q in
  draw_op (DText (x, y) text (caption_font r) None).

Definition draw_last_var (state : VarState.t) : M unit :=
  r <- get ;;
  z <- need (sizes r) ;;
  let painter := new_painter (vars_x z) (vars_y z) (vars_cols z) (vars_rows z) None None in
  '(painter, _) <- painter_write painter (VarState.name state ++ " ") None false None ;;
  '(painter, pos) <- painter_write painter (VarState.action state ++ " ") (Some (VarState.color state))
                       true None ;;
  modify (set_last_var pos) ;;
  '(painter, _) <- painter_call painter PNewLine ;;
  painter_write painter (VarState.text state) None false None ;;
  ret tt.

(** [var.name == state.ref] *)
Definition is_ref (state : VarState.t) (var : Var) : bool :=
  match VarState.ref state with
  | Some n => String.eqb (var_name var) n
  | None => false
  end.

(** The body of the loop over the recorded values of one variable. *)
Definition draw_value (state : VarState.t) (var : Var) (len : Z) (painter : Painter)
    (iv : Z * Value) : M Painter :=
  let '(v_idx, value) := iv in
  '(painter, _) <- painter_write painter (Str.nl ++ "    " ++ Str.bullet ++ " ") None false None ;;
  if is_ref state var && (v_idx =? len - 1)
  then
    '(painter, v_pos) <- painter_call painter
        (PIrepr value (Some {| hl_target := VarState.value state; hl_bold := true;
                               hl_color := VarState.color state; hl_return_pos := "H" |})) ;;
    modify (set_ref_var v_pos) ;;
    ret painter
  else
    '(painter, _) <- painter_call painter (PIrepr value None) ;;
    ret painter.

(** The body of the loop over the tracked variables. *)
Definition draw_other_var (state : VarState.t) (painter : Painter)
    (iv : Z * (Var * VarValues)) : M Painter :=
  let '(idx, (var, vals)) := iv in
  if ignored vals then ret painter
  else
    painter <- (if 0 <? idx
                then '(p, _) <- painter_write painter (Str.nl ++ Str.nl) None false None ;; ret p
                else ret painter) ;;
    '(painter, _) <- painter_write painter (var_name var ++ ":") None false None ;;
    for_fold (draw_value state var (Z.of_nat (List.length (values vals))))
      (Py.enumerate (values vals)) painter.

(** The painter of the other-variables panel after the whole loop. *)
Definition other_vars_painter (state : VarState.t) : M Painter :=
  r <- get ;;
  z <- need (sizes r) ;;
  let painter := new_painter (ovars_x z) (ovars_y z) (ovars_cols z) (ovars_rows z) None None in
  for_fold (draw_other_var state) (Py.enumerate (VarState.other_history state)) painter.

Definition draw_other_vars (state : VarState.t) : M unit :=
  other_vars_painter state ;; ret tt.

Definition draw_var_ref (state : VarState.t) : M unit :=
  r <- get ;;
  '(last_var_x, last_var_y) <- need (last_var r) ;;
  '(ref_var_x, ref_var_y) <- need (ref_var r) ;;
  let right_line_x :=
    Py.min (Py.max last_var_x ref_var_x + Config.sect_padding (cfg r))%Q
           (Config.w (cfg r) - Config.sect_padding (cfg r) / 2)%Q in
  '(sw, sh) <- draw_textsize " " (body_font r) ;;
  draw_op (DLine [ (last_var_x, last_var_y);
                   (right_line_x, last_var_y);
                   (right_line_x, ref_var_y - inject_Z sh)%Q;
                   (ref_var_x, ref_var_y - inject_Z sh)%Q;
                   (ref_var_x, ref_var_y) ]
             (VarState.color state) 2).

Definition draw_variables (state : VarState.t) : M unit :=
  draw_other_vars state ;;
  draw_last_var state ;;
  match VarState.ref state with
  | Some _ => draw_var_ref state
  | None => ret tt
  end.

(** [self.encoder.write(self.frame)]: the encoder takes the frame as it is
    at the call. *)
Definition encoder_write : M unit :=
  r <- get ;;
  match frame r with
  | Some c => emit (EvWrite c)
  | None => raise TypeError
  end.

Definition finish_frame (var_state : option VarState.t) : M unit :=
  r <- get ;;
  match frame r with
  | None => ret tt
  | Some _ =>
      match var_state with
      | Some st => draw_variables st
      | None => ret tt
      end ;;
      (if Config.watermark (cfg r) then draw_watermark else ret tt) ;;
      encoder_write
  end.

(** The body of the loop of [write_intro]. *)
Definition write_intro_frame : M unit :=
  new_frame ;;
  r <- get ;;
  let x := (Config.w (cfg r) / 2)%Q in
  let y := (Config.h (cfg r) / 2)%Q in
  text <- need (Config.intro_text (cfg r)) ;;
  draw_text_center x y text (intro_font r) (Config.fg_heading (cfg r)) ;;
  finish_frame None.

Definition write_intro : M unit :=
  r <- get ;;
  let frames := Py.round (Py.fmul (Config.intro_time (cfg r)) (Config.fps (cfg r))) in
  for_range (Z.to_nat frames) write_intro_frame.

Definition close (var_state : option VarState.t) : M unit :=
  finish_frame var_state ;;
  emit EvStop.

(** The guard of the intro in the constructor:
    [self.cfg.intro_text and self.cfg.intro_time]. *)
Definition intro_wanted (c : Config.t) : bool :=
  match Config.intro_text c with
  | Some s => Py.truthy_str s && Py.truthy_num (Config.intro_time c)
  | None => false
  end.

(** [Path(path).suffix.lower()[1:]] *)
Definition extension (path : string) : string :=
  Str.tail (Str.lower (Str.suffix path)).

(** The encoder for an extension, or the error of the constructor. *)
Definition select_encoder (path : string) (c : Config.t) : Res Encoder :=
  let ext := extension path in
  if String.eqb ext "mp4"
  then Ok (OpenCVEncoder path "mp4v" (Config.fps c) (Config.w c) (Config.h c))
  else if String.eqb ext "gif" then Ok (GIFEncoder path (Config.fps c))
  else if String.eqb ext "webp" then Ok (WebPEncoder path (Config.fps c))
  else Raise (ValueError ("Unrecognized file extension '" ++ ext ++ "'")).

(** The attributes the constructor assigns before the intro. *)
Definition initial (c : Config.t) (enc : Encoder) : FrameRenderer :=
  {| cfg := c; encoder := enc; frame := None;
     body_font := Config.font_body c;
     body_bold_font := Config.font_body_bold c;
     caption_font := Config.font_caption c;
     head_font := Config.font_heading c;
     intro_font := Config.font_intro c;
     sizes_populated := false; sizes := None;
     last_var := None; ref_var := None |}.

(** [FrameRenderer(path, config_path)], the configuration already read. *)
Definition init (path : string) (c : Config.t) (wd : World) : Res FrameRenderer * World :=
  match select_encoder path c with
  | Raise e => (Raise e, wd)
  | Ok enc =>
      let r := initial c enc in
      if intro_wanted c
      then
        match write_intro r (wd ++ [EvOpen enc]) with
        | (Ok _, r', wd') => (Ok r', wd')
        | (Raise e, _, wd') => (Raise e, wd')
        end
      else (Ok r, wd ++ [EvOpen enc])
  end.

End Renderer.

(** ** A concrete configuration and back end for evaluation *)

Module Demo.

Local Open Scope string_scope.

Definition font (n : Z) : FontSpec := {| font_file := "mono.ttf"; font_size := n |}.

(** A fixed-pitch font: a glyph is half as wide as it is high. *)
Definition backend : Backend :=
  {| textsize := fun f s => (Z.of_nat (String.length s) * (font_size f / 2), font_size f);
     call_result := fun p cs =>
       (tp_x p + inject_Z (Z.of_nat (List.length cs)), tp_y p)%Q;
     monokai :=
       [ ("Token.Text", {| sp_color := Some "f8f8f2"; sp_bold := false;
                           sp_italic := false; sp_underline := false |});
         ("Token.Keyword", {| sp_color := Some "66d9ef"; sp_bold := false;
                              sp_italic := true; sp_underline := false |}) ] |}.

Definition config_at (var_x : Q) (intro : option string) (time fps : Q) (wm : bool)
  : Config.t :=
  {| Config.w := 1920; Config.h := 1080; Config.fps := fps;
     Config.var_x := var_x; Config.out_y := 864; Config.ovar_y := 360;
     Config.sect_padding := 20; Config.head_padding := 20;
     Config.line_height := Py.b64 (11 # 10);
     Config.bg := RGBA 0 0 0 255;
     Config.fg_body := RGBA 255 255 255 255;
     Config.fg_heading := RGBA 200 200 200 255;
     Config.fg_watermark := RGBA 90 90 90 255;
     Config.highlight := RGBA 60 60 60 255;
     Config.red := RGBA 255 0 0 255;
     Config.green := RGBA 0 255 0 255;
     Config.blue := RGBA 0 0 255 255;
     Config.font_body := font 20;
     Config.font_body_bold := font 20;
     Config.font_caption := font 16;
     Config.font_heading := font 30;
     Config.font_intro := font 60;
     Config.intro_text := intro;
     Config.intro_time := time;
     Config.watermark := wm |}.

Definition config : option string -> Q -> Q -> bool -> Config.t := config_at 1280.

(** The renderer for [out.mp4] as constructed without an intro. *)
Definition fresh (c : Config.t) : FrameRenderer :=
  initial c (OpenCVEncoder "out.mp4" "mp4v" (Config.fps c) (Config.w c) (Config.h c)).


(** The same renderer after [start_frame] for the first trace step. *)
Definition started (c : Config.t) : FrameRenderer :=
  let '(_, r, _) := @start_frame backend (fresh c) [] in r.

(** A variable state without a reference and without other variables. *)
Definition plain_state : VarState.t :=
  {| VarState.name := "x"; VarState.action := "set"; VarState.color := RGBA 255 0 0 255;
     VarState.text := "1"; VarState.value := VInt 1; VarState.ref := None;
     VarState.other_history := [] |}.

(** [x = y] with [y] tracked: the state refers to [y], whose history holds
    two values. *)
Definition ref_state : VarState.t :=
  {| VarState.name := "x"; VarState.action := "set"; VarState.color := RGBA 255 0 0 255;
     VarState.text := "2"; VarState.value := VInt 2; VarState.ref := Some "y";
     VarState.other_history :=
       [ ({| var_name := "y" |}, {| ignored := false; values := [VInt 1; VInt 2] |}) ] |}.

(** The same with the history of [y] flagged ignored. *)
Definition ignored_ref_state : VarState.t :=
  {| VarState.name := "x"; VarState.action := "set"; VarState.color := RGBA 255 0 0 255;
     VarState.text := "2"; VarState.value := VInt 2; VarState.ref := Some "y";
     VarState.other_history :=
       [ ({| var_name := "y" |}, {| ignored := true; values := [VInt 1; VInt 2] |}) ] |}.

(** Two tracked variables, the first one ignored. *)
Definition first_ignored_state : VarState.t :=
  {| VarState.name := "x"; VarState.action := "set"; VarState.color := RGBA 255 0 0 255;
     VarState.text := "2"; VarState.value := VInt 2; VarState.ref := None;
     VarState.other_history :=
       [ ({| var_name := "a" |}, {| ignored := true; values := [VInt 1] |});
         ({| var_name := "b" |}, {| ignored := false; values := [VInt 2] |}) ] |}.

(** Three lines of code, tokenised. *)
Definition code_lines : list (list (Token * string)) :=
  [ [("Token.Keyword", "def"); ("Token.Text", " f():")];
    [("Token.Text", "    "); ("Token.Keyword", "return"); ("Token.Text", " 1")];
    [("Token.Text", "f()")] ].


(** The same back end with a theme whose colour carries a leading [#]. *)
Definition hash_backend : Backend :=
  {| textsize := @textsize backend;
     call_result := @call_result backend;
     monokai :=
       [ ("Token.Text", {| sp_color := Some "f8f8f2"; sp_bold := false;
                           sp_italic := false; sp_underline := false |});
         ("Token.Keyword", {| sp_color := Some "#66d9ef"; sp_bold := false;
                              sp_italic := true; sp_underline := false |}) ] |}.

(** The configuration with another output divider, body font and
    line-height factor. *)
Definition config_code (out_y : Q) (body : FontSpec) (factor : Q) : Config.t :=
  {| Config.w := 1920; Config.h := 1080; Config.fps := 30;
     Config.var_x := 1280; Config.out_y := out_y; Config.ovar_y := 360;
     Config.sect_padding := 20; Config.head_padding := 20;
     Config.line_height := factor;
     Config.bg := RGBA 0 0 0 255;
     Config.fg_body := RGBA 255 255 255 255;
     Config.fg_heading := RGBA 200 200 200 255;
     Config.fg_watermark := RGBA 90 90 90 255;
     Config.highlight := RGBA 60 60 60 255;
     Config.red := RGBA 255 0 0 255;
     Config.green := RGBA 0 255 0 255;
     Config.blue := RGBA 0 0 255 255;
     Config.font_body := body;
     Config.font_body_bold := body;
     Config.font_caption := font 16;
     Config.font_heading := font 30;
     Config.font_intro := font 60;
     Config.intro_text := None;
     Config.intro_time := 0;
     Config.watermark := false |}.

Definition config_body : FontSpec -> Q -> Config.t := config_code 864.

End Demo.


(** ** The vocabulary of the properties

    What the panels, the intro and the layout are expected to produce,
    written as plain functions of the state, the configuration and the
    sizes. *)

Section Vocabulary.

Context {B : Backend}.

(** The 50-line file of the scenario: line [i] holds the number [i]. *)
Definition lines50 : list Z := map Z.of_nat (seq 0 50).


(** The width of a body glyph and the line height, as [calc_sizes] measures
    them. *)
Definition glyph_width (r : FrameRenderer) : Z := fst (textsize (body_font r) "A").

Definition measured_line_height (r : FrameRenderer) : Q :=
  Py.fmul (inject_Z (snd (textsize (body_font r) "`^Ag"))) (Config.line_height (cfg r)).

(** The title of an intro frame, centred as [draw_text_center] places it. *)
Definition intro_title_op (r : FrameRenderer) (t : string) : DrawOp :=
  let '(w, h) := textsize (intro_font r) t in
  DText (Config.w (cfg r) / 2 - inject_Z w / 2, Config.h (cfg r) / 2 - inject_Z h / 2)%Q
        t (intro_font r) (Some (Config.fg_heading (cfg r))).

(** The watermark as [draw_watermark] places it. *)
Definition watermark_op (r : FrameRenderer) : DrawOp :=
  let '(w, h) := textsize (caption_font r) WATERMARK in
  DText (Config.w (cfg r) - Config.sect_padding (cfg r) - inject_Z w,
         Config.h (cfg r) - Config.sect_padding (cfg r) - inject_Z h)%Q
        WATERMARK (caption_font r) (Some (Config.fg_watermark (cfg r))).

(** An intro frame: a blank canvas, the title, and the watermark when it is
    enabled. *)
Definition intro_canvas (r : FrameRenderer) (t : string) : Canvas :=
  {| cv_w := Config.w (cfg r); cv_h := Config.h (cfg r); cv_bg := Config.bg (cfg r);
     cv_ops := intro_title_op r t ::
               (if Config.watermark (cfg r) then [watermark_op r] else []) |}.

(** The number of intro frames: [range(round(intro_time * fps))]. *)
Definition intro_frames (c : Config.t) : nat :=
  Z.to_nat (Py.round (Py.fmul (Config.intro_time c) (Config.fps c))).

(** The bullet written before every recorded value. *)
Definition bullet_text : string := (Str.nl ++ "    " ++ Str.bullet ++ " ")%string.

(** The highlighting of the referenced value. *)
Definition ref_highlight (state : VarState.t) : Highlight :=
  {| hl_target := VarState.value state; hl_bold := true;
     hl_color := VarState.color state; hl_return_pos := "H" |}.

(** What one recorded value adds to the calls of the painter [b], and the
    anchor captured so far. *)
Definition value_step (b : TextPainter) (state : VarState.t) (var : Var) (len : Z)
    (acc : list PainterCall * option Point) (iv : Z * Value)
  : list PainterCall * option Point :=
  let '(cs, anchor) := acc in
  let '(v_idx, value) := iv in
  let cs1 := cs ++ [PWrite bullet_text None false None] in
  if is_ref state var && (v_idx =? len - 1)
  then
    let cs2 := cs1 ++ [PIrepr value (Some (ref_highlight state))] in
    (cs2, Some (call_result b cs2))
  else (cs1 ++ [PIrepr value None], anchor).

(** What one tracked variable adds. *)
Definition var_step (b : TextPainter) (state : VarState.t)
    (acc : list PainterCall * option Point) (iv : Z * (Var * VarValues))
  : list PainterCall * option Point :=
  let '(cs, anchor) := acc in
  let '(idx, (var, vals)) := iv in
  if ignored vals then acc
  else
    let cs1 := if 0 <? idx then cs ++ [PWrite (Str.nl ++ Str.nl) None false None] else cs in
    let cs2 := cs1 ++ [PWrite (var_name var ++ ":") None false None] in
    fold_left (value_step b state var (Z.of_nat (List.length (values vals))))
      (Py.enumerate (values vals)) (cs2, anchor).

(** The calls of the other-variables panel and the anchor it captures. *)
Definition other_vars_trace (b : TextPainter) (state : VarState.t)
  : list PainterCall * option Point :=
  fold_left (var_step b state) (Py.enumerate (VarState.other_history state)) ([], None).

(** A canvas after the painter [b] received the calls [cs]. *)
Definition painted (c : Canvas) (b : TextPainter) (cs : list PainterCall) : Canvas :=
  {| cv_w := cv_w c; cv_h := cv_h c; cv_bg := cv_bg c;
     cv_ops := cv_ops c ++ map (DPaint b) cs |}.

Definition with_ref (anchor : option Point) (r : FrameRenderer) : FrameRenderer :=
  match anchor with
  | Some q => set_ref_var q r
  | None => r
  end.

(** The renderer [r] after the painter [b] drew [cs] on the canvas [c] and
    the anchor [anchor] was captured. *)
Definition after_calls (r : FrameRenderer) (c : Canvas) (b : TextPainter)
    (cs : list PainterCall) (anchor : option Point) : FrameRenderer :=
  with_ref anchor (set_frame (Some (painted c b cs)) r).

(** The painter boxes of the two variable panels. *)
Definition ovars_box (z : Sizes) : TextPainter :=
  box (new_painter (ovars_x z) (ovars_y z) (ovars_cols z) (ovars_rows z) None None).

Definition vars_box (z : Sizes) : TextPainter :=
  box (new_painter (vars_x z) (vars_y z) (vars_cols z) (vars_rows z) None None).

(** The calls of the last-variable panel; the second one returns the source
    anchor. *)
Definition last_var_calls (state : VarState.t) : list PainterCall :=
  [ PWrite (VarState.name state ++ " ") None false None;
    PWrite (VarState.action state ++ " ") (Some (VarState.color state)) true None;
    PNewLine;
    PWrite (VarState.text state) None false None ].

Definition source_anchor (z : Sizes) (state : VarState.t) : Point :=
  call_result (vars_box z) (firstn 2 (last_var_calls state)).

(** The connector of [draw_var_ref] between two anchors. *)
Definition connector (r : FrameRenderer) (state : VarState.t) (src dst : Point) : DrawOp :=
  let '(last_var_x, last_var_y) := src in
  let '(ref_var_x, ref_var_y) := dst in
  let right_line_x :=
    Py.min (Py.max last_var_x ref_var_x + Config.sect_padding (cfg r))%Q
           (Config.w (cfg r) - Config.sect_padding (cfg r) / 2)%Q in
  let '(sw, sh) := textsize (body_font r) " " in
  DLine [ (last_var_x, last_var_y);
          (right_line_x, last_var_y);
          (right_line_x, ref_var_y - inject_Z sh)%Q;
          (ref_var_x, ref_var_y - inject_Z sh)%Q;
          (ref_var_x, ref_var_y) ]
        (VarState.color state) 2.

Definition add_op (c : Canvas) (op : DrawOp) : Canvas :=
  {| cv_w := cv_w c; cv_h := cv_h c; cv_bg := cv_bg c; cv_ops := cv_ops c ++ [op] |}.

(** The destination anchor in force after [draw_other_vars]: the one of this
    pass when there is one, else what the renderer held before. *)
Definition dest_anchor (r : FrameRenderer) (captured : option Point) : option Point :=
  match captured with
  | Some q => Some q
  | None => ref_var r
  end.

(** The frame after both panels. *)
Definition panels_canvas (c : Canvas) (z : Sizes) (state : VarState.t) : Canvas :=
  painted (painted c (ovars_box z) (fst (other_vars_trace (ovars_box z) state)))
          (vars_box z) (last_var_calls state).






(** The dividers and headings [start_frame] draws on a new frame. *)
Definition heading_op (r : FrameRenderer) (x y : Q) (text : string) : DrawOp :=
  let '(w, h) := textsize (head_font r) text in
  DText (x - inject_Z w / 2, y - inject_Z h / 2)%Q text (head_font r)
        (Some (Config.fg_heading (cfg r))).

Definition chrome_ops (r : FrameRenderer) : list DrawOp :=
  let c := cfg r in
  let var_center_x := (Config.var_x c + ((Config.w c - Config.var_x c) / 2))%Q in
  [ DLine [(0%Q, Config.out_y c); (Config.var_x c, Config.out_y c)] (Config.fg_body c) 1;
    heading_op r (Config.var_x c / 2)%Q (Config.out_y c + Config.head_padding c)%Q "Output";
    DLine [(Config.var_x c, 0%Q); (Config.var_x c, Config.h c)] (Config.fg_body c) 1;
    heading_op r var_center_x (Config.head_padding c) "Last Variable";
    DLine [(Config.var_x c, Config.ovar_y c); (Config.w c, Config.ovar_y c)] (Config.fg_body c) 1;
    heading_op r var_center_x (Config.ovar_y c + Config.head_padding c)%Q "Other Variables" ].

Definition chrome_canvas (r : FrameRenderer) : Canvas :=
  {| cv_w := Config.w (cfg r); cv_h := Config.h (cfg r); cv_bg := Config.bg (cfg r);
     cv_ops := chrome_ops r |}.

(** The sizes [calc_sizes] arrives at, from the four measurements it takes:
    the body glyph [w], the heading height [hh], the tall body height [mh]
    and the caption height [ch]. *)
Definition sizes_from (c : Config.t) (w hh mh ch : Z) : Sizes :=
  let lh := Py.fmul (inject_Z mh) (Config.line_height c) in
  let rows := Py.fdiv (Config.out_y c - Config.sect_padding c * 2 - inject_Z ch)%Q lh in
  let cols := Py.round ((Config.var_x c - Config.sect_padding c * 2) / inject_Z w)%Q in
  let oy := (Config.out_y c + Config.head_padding c * 2 + inject_Z hh)%Q in
  let vcols :=
    Py.floordiv (Config.w c - Config.var_x c - Config.sect_padding c * 2)%Q (inject_Z w) in
  {| line_height := lh; body_cols := cols; _body_rows := rows; body_rows := Py.int rows;
     out_x := Config.sect_padding c; out_y := oy; out_cols := cols;
     out_rows := Py.round (Py.fdiv (Config.h c - oy)%Q lh);
     vars_x := (Config.var_x c + Config.sect_padding c)%Q;
     vars_y := (Config.head_padding c * 2 + inject_Z hh)%Q;
     vars_cols := vcols;
     vars_rows := Py.int (Py.fdiv (Config.ovar_y c - Config.head_padding c * 2 - inject_Z hh)%Q lh);
     ovars_x := (Config.var_x c + Config.sect_padding c)%Q;
     ovars_y := (Config.ovar_y c + (Config.head_padding c * 2 + inject_Z hh))%Q;
     ovars_cols := vcols;
     ovars_rows := Py.int (Py.fdiv (Config.h c - Config.ovar_y c - Config.sect_padding c * 2)%Q lh) |}.

Definition measured_sizes (r : FrameRenderer) : Sizes :=
  sizes_from (cfg r)
    (fst (textsize (body_font r) "A")) (snd (textsize (head_font r) "A"))
    (snd (textsize (body_font r) "`^Ag")) (snd (textsize (caption_font r) "1p")).


(** A string of hexadecimal digits only. *)
Fixpoint all_hex (s : string) : bool :=
  match s with
  | EmptyString => true
  | String c t =>
      match hex_digit c with
      | Some _ => all_hex t
      | None => false
      end
  end.

(** The entry of a theme that counts for a token: the last one. *)
Fixpoint theme_entry (style : list (Token * StyleParams)) (token : Token)
  : option StyleParams :=
  match style with
  | [] => None
  | (k, p) :: rest =>
      match theme_entry rest token with
      | Some q => Some q
      | None => if String.eqb k token then Some p else None
      end
  end.

(** A theme colour that counts as absent: [None] or the empty string. *)
Definition no_color (p : StyleParams) : bool :=
  match sp_color p with
  | Some c => negb (Py.truthy_str c)
  | None => true
  end.

(** The values a list of painter calls hands to [irepr], in order, and
    those among them that are handed over with highlighting. *)
Definition irepr_values (cs : list PainterCall) : list Value :=
  flat_map (fun c => match c with PIrepr v _ => [v] | _ => [] end) cs.

Definition highlighted_values (cs : list PainterCall) : list Value :=
  flat_map (fun c => match c with PIrepr v (Some _) => [v] | _ => [] end) cs.

(** The recorded values of the variables that are not ignored, and the
    latest value of each of those the state refers to. *)
Definition shown_values (hist : list (Var * VarValues)) : list Value :=
  flat_map (fun e => if ignored (snd e) then [] else values (snd e)) hist.

Definition latest (vs : list Value) : list Value :=
  skipn (List.length vs - 1) vs.

Definition referred_values (state : VarState.t) (hist : list (Var * VarValues))
  : list Value :=
  flat_map (fun e =>
      if ignored (snd e) then []
      else if is_ref state (fst e) then latest (values (snd e)) else []) hist.



(** The caption of [draw_exec] as it is placed. *)
Definition exec_op (r : FrameRenderer) (text : string) : DrawOp :=
  DText (Config.sect_padding (cfg r),
         Config.out_y (cfg r) - Config.sect_padding (cfg r)
           - inject_Z (snd (textsize (caption_font r) text)))%Q
        text (caption_font r) None.

End Vocabulary.


(** * Properties *)

(** Running the monad by hand: unfold its combinators, then alternate
    rewriting with the known attributes ([rw]) and reduction. *)
Ltac unfold_m := unfold bind, ret, raise, get, modify, emit, need.
Ltac proj_simpl :=
  cbn [frame cfg encoder body_font body_bold_font caption_font head_font intro_font
       sizes_populated sizes last_var ref_var
       set_frame set_sizes set_sizes_populated set_last_var set_ref_var
       cv_w cv_h cv_bg cv_ops app].
Ltac run_m rw := repeat (progress (unfold_m; rw; cbv beta iota zeta; proj_simpl)).

(** ** Rounding *)

Section Rounding.

Local Open Scope Q_scope.

Lemma round_bounds (x : Q) :
  x - (1 # 2) <= inject_Z (Py.round x) <= x + (1 # 2).
Proof.
  unfold Py.round.
  pose proof (Qfloor_le x) as Hlo.
  pose proof (Qlt_floor x) as Hhi.
  rewrite inject_Z_plus in Hhi. change (inject_Z 1) with 1 in Hhi.
  destruct (Qcompare_spec (x - inject_Z (Qfloor x)) (1 # 2)) as [He | Hl | Hg].
  - destruct (Z.even (Qfloor x)); rewrite ?inject_Z_plus;
      change (inject_Z 1) with 1; split; lra.
  - split; lra.
  - rewrite inject_Z_plus. change (inject_Z 1) with 1. split; lra.
Qed.

(** An integer below a rational bound is below the floor of the bound. *)
Lemma Z_le_of_Q (a b : Z) (q : Q) :
  inject_Z a <= inject_Z b + q -> q < 1 -> (a <= b)%Z.
Proof.
  intros H Hq.
  assert (inject_Z a < inject_Z (b + 1)) as Hlt
    by (rewrite inject_Z_plus; change (inject_Z 1) with 1; lra).
  rewrite <- Zlt_Qlt in Hlt. lia.
Qed.


Lemma round_near (x : Q) (n : Z) :
  (inject_Z n - (1 # 2) < x)%Q -> (x < inject_Z n + (1 # 2))%Q -> Py.round x = n.
Proof.
  intros Hlo Hhi. pose proof (round_bounds x) as [H1 H2].
  assert (inject_Z (Py.round x) < inject_Z (n + 1))%Q as Ha
    by (rewrite inject_Z_plus; change (inject_Z 1) with 1%Q; lra).
  assert (inject_Z n < inject_Z (Py.round x + 1))%Q as Hb
    by (rewrite inject_Z_plus; change (inject_Z 1) with 1%Q; lra).
  rewrite <- Zlt_Qlt in Ha, Hb. lia.
Qed.

End Rounding.

(** ** Binary64 rounding *)

Section Floats.

Local Open Scope Q_scope.

Lemma round_comp (x y : Q) : x == y -> Py.round x = Py.round y.
Proof.
  intros H. unfold Py.round. rewrite (Qfloor_comp x y H).
  assert (Hc : Qcompare (x - inject_Z (Qfloor y)) (1 # 2) =
               Qcompare (y - inject_Z (Qfloor y)) (1 # 2))
    by (apply Qcompare_comp; [rewrite H; reflexivity | reflexivity]).
  rewrite Hc. reflexivity.
Qed.

Lemma round_Z (n : Z) : Py.round (inject_Z n) = n.
Proof. apply round_near; lra. Qed.

Lemma round_mono (x y : Q) : x <= y -> (Py.round x <= Py.round y)%Z.
Proof.
  intros H. destruct (Qle_lt_or_eq _ _ H) as [Hlt | Heq].
  - pose proof (round_bounds x) as [_ Hx]. pose proof (round_bounds y) as [Hy _].
    assert (Ha : inject_Z (Py.round x) < inject_Z (Py.round y + 1))
      by (rewrite inject_Z_plus; change (inject_Z 1) with 1; lra).
    rewrite <- Zlt_Qlt in Ha. lia.
  - rewrite (round_comp _ _ Heq). lia.
Qed.

Lemma pow2_pos (e : Z) : 0 < Py.pow2 e.
Proof. apply Qpower_0_lt. reflexivity. Qed.

Lemma pow2_add (a b : Z) : Py.pow2 (a + b) == Py.pow2 a * Py.pow2 b.
Proof. apply Qpower_plus. intros H. discriminate. Qed.

Lemma pow2_le (a b : Z) : (a <= b)%Z -> Py.pow2 a <= Py.pow2 b.
Proof. intros H. apply Qpower_le_compat_l; [exact H | discriminate]. Qed.

Lemma pow2_lt (a b : Z) : (a < b)%Z -> Py.pow2 a < Py.pow2 b.
Proof. intros H. apply Qpower_lt_compat_l; [exact H | reflexivity]. Qed.

Lemma pow2_lt_inv (a b : Z) : Py.pow2 a < Py.pow2 b -> (a < b)%Z.
Proof. intros H. apply (Qpower_lt_compat_l_inv 2); [exact H | reflexivity]. Qed.

Lemma pow2_Z (z : Z) : (0 <= z)%Z -> Py.pow2 z == inject_Z (2 ^ z).
Proof. intros H. unfold Py.pow2. rewrite Zpower_Qpower by exact H. reflexivity. Qed.

Lemma pow2_sub (a b : Z) : Py.pow2 (a - b) == Py.pow2 a / Py.pow2 b.
Proof. apply Qpower_minus. intros H. discriminate. Qed.

(** [ilog2] is the floor of the binary logarithm. *)
Lemma ilog2_spec (x : Q) :
  0 < x -> Py.pow2 (Py.ilog2 x) <= x /\ x < Py.pow2 (Py.ilog2 x + 1).
Proof.
  intros Hx. destruct x as [n d].
  assert (Hn : (0 < n)%Z) by (unfold Qlt in Hx; simpl in Hx; lia).
  pose proof (Z.log2_spec n Hn) as [Hn1 Hn2].
  pose proof (Z.log2_spec (Zpos d) (Pos2Z.is_pos d)) as [Hd1 Hd2].
  pose proof (Z.log2_nonneg n) as Hln. pose proof (Z.log2_nonneg (Zpos d)) as Hld.
  set (ln := Z.log2 n) in *. set (ld := Z.log2 (Zpos d)) in *.
  assert (Hq : n # d == inject_Z n / inject_Z (Zpos d)) by apply Qmake_Qdiv.
  assert (HD : 0 < inject_Z (Zpos d)) by (change 0 with (inject_Z 0); rewrite <- Zlt_Qlt; lia).
  assert (HN : 0 < inject_Z n) by (change 0 with (inject_Z 0); rewrite <- Zlt_Qlt; lia).
  assert (Hlo : Py.pow2 (ln - ld - 1) <= n # d).
  { replace (ln - ld - 1)%Z with (ln - (ld + 1))%Z by lia.
    rewrite pow2_sub, !pow2_Z, Hq by lia.
    assert (HA : inject_Z (2 ^ ln) <= inject_Z n) by (rewrite <- Zle_Qle; exact Hn1).
    assert (HB : inject_Z (Zpos d) <= inject_Z (2 ^ (ld + 1)))
      by (rewrite <- Zle_Qle; unfold Z.succ in Hd2; lia).
    assert (HA0 : 0 < inject_Z (2 ^ ln))
      by (change 0 with (inject_Z 0); rewrite <- Zlt_Qlt; apply Z.pow_pos_nonneg; lia).
    apply Qle_shift_div_l; [exact HD |].
    apply Qle_trans with (inject_Z (2 ^ ln) / inject_Z (2 ^ (ld + 1)) * inject_Z (2 ^ (ld + 1))).
    - apply Qmult_le_l.
      + apply Qlt_shift_div_l; [lra | lra].
      + exact HB.
    - assert (Hc : inject_Z (2 ^ ln) / inject_Z (2 ^ (ld + 1)) * inject_Z (2 ^ (ld + 1))
                   == inject_Z (2 ^ ln)) by (field; lra).
      rewrite Hc. exact HA. }
  assert (Hhi : n # d < Py.pow2 (ln - ld + 1)).
  { replace (ln - ld + 1)%Z with (ln + 1 - ld)%Z by lia.
    rewrite pow2_sub, !pow2_Z, Hq by lia.
    assert (HA : inject_Z n < inject_Z (2 ^ (ln + 1)))
      by (rewrite <- Zlt_Qlt; unfold Z.succ in Hn2; lia).
    assert (HB : inject_Z (2 ^ ld) <= inject_Z (Zpos d)) by (rewrite <- Zle_Qle; exact Hd1).
    assert (HB0 : 0 < inject_Z (2 ^ ld))
      by (change 0 with (inject_Z 0); rewrite <- Zlt_Qlt; apply Z.pow_pos_nonneg; lia).
    apply Qlt_shift_div_r; [exact HD |].
    apply Qlt_le_trans with (inject_Z (2 ^ (ln + 1)) / inject_Z (2 ^ ld) * inject_Z (2 ^ ld)).
    - assert (Hc : inject_Z (2 ^ (ln + 1)) / inject_Z (2 ^ ld) * inject_Z (2 ^ ld)
                   == inject_Z (2 ^ (ln + 1))) by (field; lra).
      rewrite Hc. exact HA.
    - apply Qmult_le_l; [| exact HB].
      apply Qlt_shift_div_l; [lra | lra]. }
  unfold Py.ilog2. cbn [Qnum Qden]. fold ln ld.
  destruct (Qle_bool (Py.pow2 (ln - ld)) (n # d)) eqn:E.
  - apply Qle_bool_iff in E. split; [exact E | exact Hhi].
  - split; [exact Hlo |].
    replace (ln - ld - 1 + 1)%Z with (ln - ld)%Z by lia.
    apply Qnot_le_lt. intros H. apply Qle_bool_iff in H. congruence.
Qed.


Lemma expo_min (x : Q) : (-1074 <= Py.expo x)%Z.
Proof. unfold Py.expo. lia. Qed.

Lemma Qabs_pos_lt (x : Q) : ~ x == 0 -> 0 < Qabs x.
Proof.
  intros H. destruct (Qlt_le_dec 0 x) as [Hp | Hn].
  - rewrite Qabs_pos by lra. exact Hp.
  - rewrite Qabs_neg by exact Hn.
    destruct (Qle_lt_or_eq _ _ Hn) as [Hlt | Heq]; [lra | contradiction].
Qed.

Lemma expo_upper (x : Q) : Qabs x < Py.pow2 (Py.expo x + 53).
Proof.
  destruct (Qeq_dec x 0) as [H0 | H0].
  - assert (Ha : Qabs x == 0) by (rewrite (Qabs_wd x 0 H0); reflexivity).
    pose proof (pow2_pos (Py.expo x + 53)). lra.
  - destruct (ilog2_spec (Qabs x) (Qabs_pos_lt x H0)) as [_ Hhi].
    apply Qlt_le_trans with (1 := Hhi). apply pow2_le. unfold Py.expo. lia.
Qed.

Lemma expo_lower (x : Q) :
  ~ x == 0 -> (-1074 < Py.expo x)%Z -> Py.pow2 (Py.expo x + 52) <= Qabs x.
Proof.
  intros H0 He. destruct (ilog2_spec (Qabs x) (Qabs_pos_lt x H0)) as [Hlo _].
  apply Qle_trans with (2 := Hlo). apply pow2_le. unfold Py.expo in *. lia.
Qed.

Lemma expo_le (x : Q) (j : Z) :
  ~ x == 0 -> Qabs x < Py.pow2 (j + 53) -> (-1074 <= j)%Z -> (Py.expo x <= j)%Z.
Proof.
  intros H0 Hx Hj. destruct (Z.le_gt_cases (Py.expo x) j) as [H | H]; [exact H |].
  pose proof (expo_lower x H0 ltac:(lia)) as Hlo.
  assert (Hp : Py.pow2 (Py.expo x + 52) < Py.pow2 (j + 53)) by lra.
  apply pow2_lt_inv in Hp. lia.
Qed.

Lemma expo_mono (x y : Q) :
  ~ x == 0 -> Qabs x <= Qabs y -> (Py.expo x <= Py.expo y)%Z.
Proof.
  intros H0 Hxy. apply expo_le; [exact H0 | | apply expo_min].
  pose proof (expo_upper y). lra.
Qed.

Lemma expo_opp (x : Q) : Py.expo (- x) = Py.expo x.
Proof.
  unfold Py.expo. destruct x as [n d]. unfold Qopp, Qabs. cbn [Qnum Qden].
  now rewrite Z.abs_opp.
Qed.

(** What [round] returns, and that nothing else fits. *)
Lemma round_sat (q : Q) :
  (inject_Z (Py.round q) - (1 # 2) < q /\ q < inject_Z (Py.round q) + (1 # 2)) \/
  (Z.even (Py.round q) = true /\
   (q == inject_Z (Py.round q) + (1 # 2) \/ q == inject_Z (Py.round q) - (1 # 2))).
Proof.
  unfold Py.round.
  pose proof (Qfloor_le q) as Hlo.
  pose proof (Qlt_floor q) as Hhi.
  rewrite inject_Z_plus in Hhi. change (inject_Z 1) with 1 in Hhi.
  destruct (Qcompare_spec (q - inject_Z (Qfloor q)) (1 # 2)) as [He | Hl | Hg].
  - right. destruct (Z.even (Qfloor q)) eqn:Ev.
    + split; [exact Ev | left; lra].
    + split.
      * rewrite Z.even_add, Ev. reflexivity.
      * right. rewrite inject_Z_plus. change (inject_Z 1) with 1. lra.
  - left. split; lra.
  - left. rewrite inject_Z_plus. change (inject_Z 1) with 1. split; lra.
Qed.

Lemma round_unique (q : Q) (n : Z) :
  (inject_Z n - (1 # 2) < q /\ q < inject_Z n + (1 # 2)) \/
  (Z.even n = true /\ (q == inject_Z n + (1 # 2) \/ q == inject_Z n - (1 # 2))) ->
  Py.round q = n.
Proof.
  intros [[H1 H2] | [Hev Ht]]; [now apply round_near |].
  destruct (round_sat q) as [[R1 R2] | [Rev Rt]].
  - (* the rounded value is strictly near, so it is [n +- 1/2] away from [n]: parity *)
    destruct Ht as [Ht | Ht].
    + assert (Ha : inject_Z n < inject_Z (Py.round q)) by lra.
      assert (Hb : inject_Z (Py.round q) < inject_Z (n + 1))
        by (rewrite inject_Z_plus; change (inject_Z 1) with 1; lra).
      rewrite <- Zlt_Qlt in Ha, Hb. lia.
    + assert (Ha : inject_Z n < inject_Z (Py.round q + 1))
        by (rewrite inject_Z_plus; change (inject_Z 1) with 1; lra).
      assert (Hb : inject_Z (Py.round q) < inject_Z n) by lra.
      rewrite <- Zlt_Qlt in Ha, Hb. lia.
  - set (m := Py.round q) in *.
    assert (Hd : (m = n \/ m = n + 1 \/ m = n - 1)%Z).
    { assert (Ha : inject_Z n < inject_Z (m + 2))
        by (rewrite inject_Z_plus; change (inject_Z 2) with 2; destruct Ht, Rt; lra).
      assert (Hb : inject_Z m < inject_Z (n + 2))
        by (rewrite inject_Z_plus; change (inject_Z 2) with 2; destruct Ht, Rt; lra).
      rewrite <- Zlt_Qlt in Ha, Hb. lia. }
    destruct Hd as [Hd | [Hd | Hd]]; [exact Hd | |]; exfalso; subst m; rewrite Hd in Rev.
    + rewrite Z.even_add, Hev in Rev. discriminate.
    + rewrite Z.even_sub, Hev in Rev. discriminate.
Qed.

Lemma round_opp (q : Q) : Py.round (- q) = (- Py.round q)%Z.
Proof.
  apply round_unique. rewrite inject_Z_opp, Z.even_opp.
  destruct (round_sat q) as [[R1 R2] | [Rev [Rt | Rt]]].
  - left. split; lra.
  - right. split; [exact Rev | right; lra].
  - right. split; [exact Rev | left; lra].
Qed.

Lemma b64_opp (x : Q) : Py.b64 (- x) == - Py.b64 x.
Proof.
  unfold Py.b64. cbv zeta. rewrite expo_opp.
  assert (H : - x / Py.pow2 (Py.expo x) == - (x / Py.pow2 (Py.expo x))).
  { field. pose proof (pow2_pos (Py.expo x)). lra. }
  rewrite (round_comp _ _ H), round_opp, inject_Z_opp. ring.
Qed.

Lemma b64_zero (x : Q) : x == 0 -> Py.b64 x == 0.
Proof.
  intros H. unfold Py.b64. cbv zeta.
  assert (Hq : x / Py.pow2 (Py.expo x) == inject_Z 0).
  { generalize (Py.pow2 (Py.expo x)). intros p. rewrite H.
    unfold Qdiv. change (inject_Z 0) with 0. ring. }
  rewrite (round_comp _ _ Hq), round_Z. change (inject_Z 0) with 0. ring.
Qed.

Lemma b64_nonneg (x : Q) : 0 <= x -> 0 <= Py.b64 x.
Proof.
  intros H. unfold Py.b64. cbv zeta. pose proof (pow2_pos (Py.expo x)) as Hp.
  apply Qmult_le_0_compat; [| lra].
  change 0 with (inject_Z 0). rewrite <- Zle_Qle.
  rewrite <- (round_Z 0). apply round_mono. change (inject_Z 0) with 0.
  apply Qle_shift_div_l; [exact Hp | lra].
Qed.

(** Scaled by its own exponent, a float is an integer of 53 bits at most. *)
Lemma b64_scaled (x : Q) :
  Py.b64 x == inject_Z (Py.round (x / Py.pow2 (Py.expo x))) * Py.pow2 (Py.expo x).
Proof. reflexivity. Qed.

Lemma b64_mono_pos (x y : Q) : 0 < x -> x <= y -> Py.b64 x <= Py.b64 y.
Proof.
  intros Hx Hxy.
  assert (H0 : ~ x == 0) by (intros H; rewrite H in Hx; discriminate).
  assert (Hax : Qabs x == x) by (apply Qabs_pos; lra).
  assert (Hay : Qabs y == y) by (apply Qabs_pos; lra).
  pose proof (expo_mono x y H0 ltac:(lra)) as He.
  pose proof (pow2_pos (Py.expo x)) as Hpx. pose proof (pow2_pos (Py.expo y)) as Hpy.
  rewrite !b64_scaled.
  destruct (Z.eq_dec (Py.expo x) (Py.expo y)) as [Heq | Hne].
  - rewrite <- Heq. apply Qmult_le_compat_r; [| lra].
    rewrite <- Zle_Qle. apply round_mono.
    apply Qmult_le_compat_r; [exact Hxy |]. apply Qinv_le_0_compat. lra.
  - (* [x] lies in a lower binade than [y] *)
    apply Qle_trans with (Py.pow2 (Py.expo x + 53)).
    + rewrite pow2_add, (pow2_Z 53) by lia. rewrite (Qmult_comm (Py.pow2 _)).
      apply Qmult_le_compat_r; [| lra].
      rewrite <- Zle_Qle.
      apply Z.le_trans with (Py.round (inject_Z (2 ^ 53))); [| rewrite round_Z; lia].
      apply round_mono.
      apply Qle_shift_div_r; [exact Hpx |].
      pose proof (expo_upper x) as Hu. rewrite pow2_add, (pow2_Z 53) in Hu by lia.
      rewrite Hax in Hu. rewrite Qmult_comm. lra.
    + apply Qle_trans with (Py.pow2 (Py.expo y + 52)); [apply pow2_le; lia |].
      rewrite pow2_add, (pow2_Z 52) by lia. rewrite (Qmult_comm (Py.pow2 _)).
      apply Qmult_le_compat_r; [| lra].
      rewrite <- Zle_Qle.
      apply Z.le_trans with (Py.round (inject_Z (2 ^ 52))); [rewrite round_Z; lia |].
      apply round_mono.
      apply Qle_shift_div_l; [exact Hpy |].
      assert (H0y : ~ y == 0) by (intros H; rewrite H in Hxy; lra).
      pose proof (expo_lower y H0y ltac:(pose proof (expo_min x); lia)) as Hl.
      rewrite pow2_add, (pow2_Z 52) in Hl by lia.
      rewrite Hay in Hl. rewrite Qmult_comm. lra.
Qed.

(** Rounding keeps the order. *)
Lemma b64_mono (x y : Q) : x <= y -> Py.b64 x <= Py.b64 y.
Proof.
  intros Hxy. destruct (Qlt_le_dec 0 x) as [Hx | Hx].
  - now apply b64_mono_pos.
  - destruct (Qlt_le_dec y 0) as [Hy | Hy].
    + (* both negative: mirror *)
      assert (H : Py.b64 (- y) <= Py.b64 (- x)) by (apply b64_mono_pos; lra).
      rewrite !b64_opp in H. lra.
    + assert (H1 : Py.b64 (- x) >= 0) by (apply b64_nonneg; lra).
      rewrite b64_opp in H1. pose proof (b64_nonneg y Hy). lra.
Qed.

Lemma b64_comp (x y : Q) : x == y -> Py.b64 x == Py.b64 y.
Proof.
  intros H. apply Qle_antisym; apply b64_mono; rewrite H; apply Qle_refl.
Qed.

(** A multiple of a power of two that its own exponent can hold is a float. *)
Lemma b64_exact (x : Q) (k j : Z) :
  x == inject_Z k * Py.pow2 j -> (Py.expo x <= j)%Z -> Py.b64 x == x.
Proof.
  intros Hx He. rewrite b64_scaled.
  set (e := Py.expo x) in *. clearbody e.
  pose proof (pow2_pos e) as Hp.
  assert (Hq : x / Py.pow2 e == inject_Z (k * 2 ^ (j - e))).
  { rewrite inject_Z_mult, <- pow2_Z by lia. rewrite pow2_sub, Hx. field. lra. }
  rewrite (round_comp _ _ Hq), round_Z.
  rewrite inject_Z_mult, <- pow2_Z by lia. rewrite pow2_sub, Hx. field. lra.
Qed.

Lemma b64_int (n : Z) : (Z.abs n < 2 ^ 53)%Z -> Py.b64 (inject_Z n) == inject_Z n.
Proof.
  intros Hn. destruct (Z.eq_dec n 0) as [-> | H0]; [now apply b64_zero |].
  apply (b64_exact _ n 0).
  - change (Py.pow2 0) with 1. ring.
  - apply expo_le; [| | lia].
    + intros H. apply H0. unfold Qeq in H. simpl in H. lia.
    + change (inject_Z n) with (n # 1). rewrite <- Zabs_Qabs.
      rewrite (pow2_Z (0 + 53)) by lia. change (Z.abs n # 1) with (inject_Z (Z.abs n)).
      rewrite <- Zlt_Qlt. exact Hn.
Qed.

Lemma b64_half (k : Z) : (Z.abs k < 2 ^ 53)%Z -> Py.b64 (inject_Z k / 2) == inject_Z k / 2.
Proof.
  intros Hk. destruct (Z.eq_dec k 0) as [-> | H0];
    [rewrite b64_zero by reflexivity; reflexivity |].
  apply (b64_exact _ k (-1)).
  - change (Py.pow2 (-1)) with (1 # 2). field.
  - apply expo_le; [| | lia].
    + intros H. apply H0.
      assert (H' : inject_Z k == 0) by (rewrite <- (Qmult_div_r (inject_Z k) 2), H by lra; ring).
      unfold Qeq in H'. simpl in H'. lia.
    + assert (Ha : Qabs (inject_Z k / 2) == inject_Z (Z.abs k) / 2).
      { unfold Qdiv. rewrite Qabs_Qmult. change (inject_Z k) with (k # 1).
        rewrite <- Zabs_Qabs. reflexivity. }
      rewrite Ha. replace (-1 + 53)%Z with 52%Z by lia. rewrite (pow2_Z 52) by lia.
      assert (Hb : inject_Z (Z.abs k) < inject_Z (2 ^ 53)) by (rewrite <- Zlt_Qlt; exact Hk).
      change (inject_Z (2 ^ 53)) with (2 * inject_Z (2 ^ 52)) in Hb.
      apply Qlt_shift_div_r; [reflexivity | lra].
Qed.

Lemma b64_le (x g : Q) : x <= g -> Py.b64 g == g -> Py.b64 x <= g.
Proof. intros H Hg. rewrite <- Hg. now apply b64_mono. Qed.

Lemma b64_ge (x g : Q) : g <= x -> Py.b64 g == g -> g <= Py.b64 x.
Proof. intros H Hg. rewrite <- Hg. now apply b64_mono. Qed.

End Floats.

(** ** Slices and enumeration *)

Section Slices.

Context {A : Type}.

Lemma slice_nonneg (l : list A) (s e : Z) :
  0 <= s -> 0 <= e ->
  Py.slice l s e =
  firstn (Z.to_nat (Z.min e (Z.of_nat (List.length l)) - Z.min s (Z.of_nat (List.length l))))
         (skipn (Z.to_nat (Z.min s (Z.of_nat (List.length l)))) l).
Proof.
  intros Hs He. unfold Py.slice, Py.slice_index.
  destruct (Z.ltb_spec s 0); [lia |].
  destruct (Z.ltb_spec e 0); [lia |].
  reflexivity.
Qed.

Lemma slice_length_le (l : list A) (s e : Z) :
  0 <= s -> 0 <= e ->
  Z.of_nat (List.length (Py.slice l s e)) <= Z.min (Z.max 0 (e - s)) (Z.of_nat (List.length l)).
Proof.
  intros Hs He. rewrite slice_nonneg by assumption.
  rewrite length_firstn, length_skipn. lia.
Qed.


Lemma enumerate_from_length (i : Z) (l : list A) :
  List.length (Py.enumerate_from i l) = List.length l.
Proof.
  revert i. induction l as [| x t IH]; intros i; simpl; [reflexivity |].
  now rewrite IH.
Qed.

Lemma enumerate_from_nth_error (l : list A) (i : Z) (k : nat) (x : A) :
  nth_error l k = Some x ->
  nth_error (Py.enumerate_from i l) k = Some (i + Z.of_nat k, x).
Proof.
  revert i k. induction l as [| y t IH]; intros i k Hk.
  - destruct k; discriminate.
  - destruct k as [| k]; simpl in *.
    + inversion Hk; subst. f_equal. f_equal. lia.
    + rewrite (IH (i + 1) k Hk). f_equal. f_equal. lia.
Qed.

Lemma hlines_length (lines : list A) (cur_idx : Z) :
  List.length (hlines lines cur_idx) = List.length lines.
Proof.
  unfold hlines, Py.enumerate. now rewrite length_map, enumerate_from_length.
Qed.

Lemma hlines_nth_error (lines : list A) (cur_idx : Z) (k : nat) (x : A) :
  nth_error lines k = Some x ->
  nth_error (hlines lines cur_idx) k = Some (x, Z.of_nat k =? cur_idx).
Proof.
  intros Hk. unfold hlines, Py.enumerate.
  rewrite nth_error_map, (enumerate_from_nth_error lines 0 k x Hk). reflexivity.
Qed.

End Slices.

(** ** The viewport *)

Section ViewportFacts.






(** The context [(_body_rows - 1) / 2] for a row count between [n] and
    [n + 1]: rounding keeps it between the two half-integers. *)
Lemma ctx_bounds (r : Q) (n : Z) :
  (inject_Z n <= r)%Q -> (r <= inject_Z n + 1)%Q -> 1 <= n <= 2 ^ 31 ->
  (inject_Z (n - 1) / 2 <= Py.fdiv (Py.fsub r 1) 2)%Q /\
  (Py.fdiv (Py.fsub r 1) 2 <= inject_Z n / 2)%Q.
Proof.
  intros Hlo Hhi Hn. unfold Py.fdiv, Py.fsub.
  assert (Hn1 : (inject_Z (n - 1) == inject_Z n - 1)%Q)
    by (unfold Z.sub; rewrite inject_Z_plus; reflexivity).
  assert (Ha1 : (inject_Z (n - 1) <= Py.b64 (r - 1))%Q)
    by (apply b64_ge; [lra | apply b64_int; lia]).
  assert (Ha2 : (Py.b64 (r - 1) <= inject_Z n)%Q)
    by (apply b64_le; [lra | apply b64_int; lia]).
  split.
  - apply b64_ge; [| apply b64_half; lia].
    apply Qmult_le_compat_r; [exact Ha1 | discriminate].
  - apply b64_le; [| apply b64_half; lia].
    apply Qmult_le_compat_r; [exact Ha2 | discriminate].
Qed.

(** The two sums of [naive_window] on the half-integer grid. *)
Lemma naive_window_sums (r : Q) (n c : Z) :
  (inject_Z n <= r)%Q -> (r <= inject_Z n + 1)%Q -> 1 <= n <= 2 ^ 31 ->
  - 2 ^ 31 <= c <= 2 ^ 31 ->
  exists sf ef : Q,
    naive_window r c = (Py.round sf, Py.round ef) /\
    (inject_Z (2 * c - n) / 2 <= sf)%Q /\ (sf <= inject_Z (2 * c - n + 1) / 2)%Q /\
    (inject_Z (2 * c + n - 1) / 2 <= ef)%Q /\ (ef <= inject_Z (2 * c + n) / 2)%Q.
Proof.
  intros Hlo Hhi Hn Hc.
  destruct (ctx_bounds r n Hlo Hhi Hn) as [Hc1 Hc2].
  unfold naive_window. set (x := Py.fdiv (Py.fsub r 1) 2) in *.
  exists (Py.fsub (inject_Z c) x), (Py.fadd (inject_Z c) x).
  split; [reflexivity |]. unfold Py.fsub, Py.fadd.
  assert (E1 : (inject_Z (2 * c - n) / 2 == inject_Z c - inject_Z n / 2)%Q).
  { unfold Z.sub. rewrite inject_Z_plus, inject_Z_mult, inject_Z_opp.
    change (inject_Z 2) with 2%Q. field. }
  assert (E2 : (inject_Z (2 * c - n + 1) / 2 == inject_Z c - inject_Z (n - 1) / 2)%Q).
  { unfold Z.sub. rewrite !inject_Z_plus, inject_Z_mult, !inject_Z_opp.
    change (inject_Z 2) with 2%Q. change (inject_Z 1) with 1%Q. field. }
  assert (E3 : (inject_Z (2 * c + n - 1) / 2 == inject_Z c + inject_Z (n - 1) / 2)%Q).
  { unfold Z.sub. rewrite !inject_Z_plus, inject_Z_mult, !inject_Z_opp.
    change (inject_Z 2) with 2%Q. change (inject_Z 1) with 1%Q. field. }
  assert (E4 : (inject_Z (2 * c + n) / 2 == inject_Z c + inject_Z n / 2)%Q).
  { rewrite inject_Z_plus, inject_Z_mult. change (inject_Z 2) with 2%Q. field. }
  repeat split.
  - apply b64_ge; [| apply b64_half; lia]. lra.
  - apply b64_le; [| apply b64_half; lia]. lra.
  - apply b64_ge; [| apply b64_half; lia]. lra.
  - apply b64_le; [| apply b64_half; lia]. lra.
Qed.



End ViewportFacts.




(** Where rounding lands on a tie.  A body glyph 14 high at a line-height
    factor of 1.1 and 154 pixels for the code give 9.999999999999998 rows,
    so 9 body rows, and at line 26 the window is [20:30], ten lines.  A
    glyph 45 high at a factor of 1.4 and 126 pixels give
    2.0000000000000004 rows, and at line 25 the window is [24:24], empty. *)
Lemma window_on_rounded_ties :
  let rows := Py.fdiv 154 (Py.fmul 14 (Py.b64 (11 # 10))) in
  let rows' := Py.fdiv 126 (Py.fmul 45 (Py.b64 (14 # 10))) in
  (rows == 5629499534213119 # 562949953421312)%Q /\ Py.int rows = 9 /\
  window rows 26 = (20, 30) /\
  List.length (display_lines rows lines50 26) = 10%nat /\
  (2 < rows')%Q /\ window rows' 25 = (24, 24) /\
  display_lines rows' lines50 25 = [].
Proof.
  vm_compute. repeat split; reflexivity.
Qed.

Lemma int_eq_pos (r : Q) (n : Z) :
  0 < n -> Py.int r = n -> (inject_Z n <= r)%Q /\ (r < inject_Z n + 1)%Q.
Proof.
  intros Hn Hi. unfold Py.int in Hi.
  destruct (Qle_bool 0 r) eqn:E.
  - subst n. split; [apply Qfloor_le |].
    pose proof (Qlt_floor r) as H. rewrite inject_Z_plus in H. exact H.
  - exfalso.
    assert (r < 0)%Q as Hneg.
    { apply Qnot_le_lt. intros Hle. apply Qle_bool_iff in Hle. congruence. }
    pose proof (Qceiling_lt r) as H.
    assert (inject_Z (Qceiling r - 1) < inject_Z 0)%Q as H0 by (change (inject_Z 0) with 0%Q; lra).
    rewrite <- Zlt_Qlt in H0. lia.
Qed.

Lemma slice_prefix {A : Type} (l : list A) (n : Z) :
  0 <= n -> Py.slice l 0 n = firstn (Z.to_nat n) l.
Proof.
  intros Hn. rewrite slice_nonneg by lia.
  replace (Z.to_nat (Z.min 0 (Z.of_nat (List.length l)))) with 0%nat by lia.
  rewrite skipn_0.
  destruct (Z.le_ge_cases n (Z.of_nat (List.length l))).
  - f_equal. lia.
  - rewrite !firstn_all2 by lia. reflexivity.
Qed.

(** C5 (as the code has it): with 11 body rows and line 2 current, the naive
    indexes are -4 and 6, the adjusted ones 0 and 10, and the window is the
    slice [0:10] of the file, which holds the current line (index 1),
    flagged. *)
Theorem draw_code_top_of_file {Line : Type} (r : Q) (lines : list Line) :
  Py.int r = 11 ->
  (2 <= List.length lines)%nat ->
  naive_window r 1 = (-4, 6) /\
  window r 2 = (0, 10) /\
  display_lines r lines 2 = firstn 10 (hlines lines 1) /\
  exists l, nth_error lines 1 = Some l /\
            nth_error (display_lines r lines 2) 1 = Some (l, true).
Proof.
  intros Hr Hlen.
  apply int_eq_pos in Hr; [| lia]. destruct Hr as [Hlo Hhi].
  assert (Hn : naive_window r 1 = (-4, 6)).
  { destruct (naive_window_sums r 11 1) as (sf & ef & -> & S1 & S2 & E1 & E2);
      [exact Hlo | lra | lia | lia |].
    apply round_mono in S1, S2, E1, E2.
    change (Py.round (inject_Z (2 * 1 - 11) / 2)) with (-4) in S1.
    change (Py.round (inject_Z (2 * 1 - 11 + 1) / 2)) with (-4) in S2.
    change (Py.round (inject_Z (2 * 1 + 11 - 1) / 2)) with 6 in E1.
    change (Py.round (inject_Z (2 * 1 + 11) / 2)) with 6 in E2.
    f_equal; lia. }
  assert (Hw : window r 2 = (0, 10)).
  { unfold window. change (2 - 1) with 1. rewrite Hn. reflexivity. }
  assert (Hd : display_lines r lines 2 = firstn 10 (hlines lines 1)).
  { unfold display_lines. rewrite Hw. change (2 - 1) with 1.
    now rewrite slice_prefix by lia. }
  repeat split; try assumption.
  destruct (nth_error lines 1) as [l |] eqn:El.
  - exists l. split; [reflexivity |]. rewrite Hd.
    rewrite nth_error_firstn. simpl Nat.ltb. cbv iota.
    now rewrite (hlines_nth_error lines 1 1 l El).
  - apply nth_error_None in El. lia.
Qed.

Lemma draw_code_top_of_file_witness :
  naive_window 11 1 = (-4, 6) /\
  window 11 2 = (0, 10) /\
  display_lines 11 lines50 2 = firstn 10 (hlines lines50 1) /\
  exists l, nth_error lines50 1 = Some l /\
            nth_error (display_lines 11 lines50 2) 1 = Some (l, true).
Proof.
  apply (draw_code_top_of_file 11 lines50).
  - reflexivity.
  - vm_compute. lia.
Defined.

(** C5 fails as stated: the naive start is -4, not -3, and the window ends
    at index 10 with ten lines, not at 8 with nine. *)
Lemma draw_code_top_of_file_not_8 :
  fst (naive_window 11 1) = -4 /\
  window 11 2 = (0, 10) /\
  snd (window 11 2) <> 8 /\
  List.length (display_lines 11 lines50 2) = 10%nat /\
  List.length (display_lines 11 lines50 2) <> 9%nat.
Proof.
  repeat split; try reflexivity; vm_compute; discriminate.
Qed.

(** ** Layout *)

Section Layout.

Context {B : Backend}.



End Layout.




(** ** The output panel *)






(** ** Frames: intro, finishing, closing *)

Section Frames.

Context {B : Backend}.

Lemma set_frame_self (r : FrameRenderer) : set_frame (frame r) r = r.
Proof. destruct r; reflexivity. Qed.

(** Finishing when no frame was ever created does nothing. *)
Lemma finish_frame_idle (v : option VarState.t) (r : FrameRenderer) (wd : World) :
  frame r = None -> finish_frame v r wd = (Ok tt, r, wd).
Proof.
  intros Hf. unfold finish_frame. run_m ltac:(rewrite ?Hf). reflexivity.
Qed.

(** One round of the intro loop, from any frame the renderer holds. *)
Lemma intro_round (r : FrameRenderer) (t : string) (f : option Canvas) (wd : World) :
  Config.intro_text (cfg r) = Some t ->
  write_intro_frame (set_frame f r) wd =
  (Ok tt, set_frame (Some (intro_canvas r t)) r, wd ++ [EvWrite (intro_canvas r t)]).
Proof.
  intros Ht.
  unfold write_intro_frame, new_frame, draw_text_center, finish_frame, draw_watermark, encoder_write,
    draw_textsize, draw_op, intro_canvas, intro_title_op, watermark_op.
  run_m ltac:(rewrite ?Ht).
  destruct (textsize (intro_font r) t) as [tw th].
  run_m idtac.
  destruct (Config.watermark (cfg r)).
  - run_m idtac.
    destruct (textsize (caption_font r) WATERMARK) as [ww wh].
    run_m idtac. reflexivity.
  - run_m idtac. reflexivity.
Qed.

(** The whole intro loop. *)
Lemma intro_loop (r : FrameRenderer) (t : string) (n : nat) :
  Config.intro_text (cfg r) = Some t ->
  forall (f : option Canvas) (wd : World),
    for_range n write_intro_frame (set_frame f r) wd =
    (Ok tt,
     set_frame (match n with O => f | S _ => Some (intro_canvas r t) end) r,
     wd ++ repeat (EvWrite (intro_canvas r t)) n).
Proof.
  intros Ht. induction n as [| n IH]; intros f wd.
  - simpl. unfold ret. now rewrite app_nil_r.
  - cbn [for_range]. unfold bind at 1. rewrite (intro_round r t f wd Ht).
    rewrite IH. cbn [repeat]. rewrite <- app_assoc. cbn [app].
    destruct n; reflexivity.
Qed.

Lemma write_intro_run (r : FrameRenderer) (t : string) (wd : World) :
  Config.intro_text (cfg r) = Some t ->
  write_intro r wd =
  (Ok tt,
   set_frame (match intro_frames (cfg r) with O => frame r | S _ => Some (intro_canvas r t) end) r,
   wd ++ repeat (EvWrite (intro_canvas r t)) (intro_frames (cfg r))).
Proof.
  intros Ht.
  pose proof (intro_loop r t (intro_frames (cfg r)) Ht (frame r) wd) as H.
  rewrite set_frame_self in H. exact H.
Qed.

(** What the constructor does for a supported extension. *)
Lemma init_supported (path : string) (c : Config.t) (enc : Encoder) (wd : World) :
  select_encoder path c = Ok enc ->
  init path c wd =
  match Config.intro_text c with
  | Some t =>
      if intro_wanted c
      then (Ok (set_frame (match intro_frames c with
                           | O => None
                           | S _ => Some (intro_canvas (initial c enc) t)
                           end) (initial c enc)),
            (wd ++ [EvOpen enc]) ++ repeat (EvWrite (intro_canvas (initial c enc) t)) (intro_frames c))
      else (Ok (initial c enc), wd ++ [EvOpen enc])
  | None => (Ok (initial c enc), wd ++ [EvOpen enc])
  end.
Proof.
  intros He. unfold init. rewrite He.
  destruct (Config.intro_text c) as [t |] eqn:Et.
  - destruct (intro_wanted c); [| reflexivity].
    rewrite (write_intro_run (initial c enc) t _ Et). reflexivity.
  - unfold intro_wanted. rewrite Et. reflexivity.
Qed.

End Frames.

(** ** The constructor *)

(** C8: a path whose extension is none of [mp4], [gif], [webp] makes the
    constructor raise [ValueError]; nothing has happened by then: no encoder
    was constructed, no frame written, and no renderer is returned.  For an
    ASCII path, where lower-casing is the ASCII one, the message names the
    lower-cased extension.  The extension [mp4] constructs the OpenCV
    encoder with the fourcc [mp4v] and the configured fps, width and
    height, and the constructor returns a renderer holding it. *)
Theorem init_selects_encoder {B : Backend} (path : string) (c : Config.t) (wd : World) :
  (extension path <> "mp4"%string -> extension path <> "gif"%string ->
   extension path <> "webp"%string ->
   exists msg,
     init path c wd = (Raise (ValueError msg), wd) /\
     (Str.is_ascii path = true ->
      msg = ("Unrecognized file extension '" ++ extension path ++ "'")%string)) /\
  (extension path = "mp4"%string ->
   exists r wd',
     init path c wd =
       (Ok r, wd ++ EvOpen (OpenCVEncoder path "mp4v" (Config.fps c) (Config.w c) (Config.h c))
                 :: wd') /\
     encoder r = OpenCVEncoder path "mp4v" (Config.fps c) (Config.w c) (Config.h c) /\
     forall e, In e wd' -> exists cv, e = EvWrite cv).
Proof.
  split.
  - intros H1 H2 H3. unfold init, select_encoder.
    apply String.eqb_neq in H1, H2, H3. rewrite H1, H2, H3.
    eexists. split; [reflexivity | intros _; reflexivity].
  - intros Hext.
    set (enc := OpenCVEncoder path "mp4v" (Config.fps c) (Config.w c) (Config.h c)).
    assert (Hsel : select_encoder path c = Ok enc).
    { unfold select_encoder. rewrite Hext. reflexivity. }
    rewrite (init_supported path c enc wd Hsel).
    destruct (Config.intro_text c) as [t |].
    + destruct (intro_wanted c).
      * eexists. eexists. split; [rewrite <- app_assoc; reflexivity |].
        split; [reflexivity |].
        intros e He. apply repeat_spec in He. eauto.
      * exists (initial c enc), []. repeat split. intros e [].
    + exists (initial c enc), []. repeat split. intros e [].
Qed.

Lemma init_selects_encoder_witness :
  @init Demo.backend "out.xyz" (Demo.config None 0 30 false) [] =
    (Raise (ValueError "Unrecognized file extension 'xyz'"), []) /\
  @init Demo.backend "clips/take.1.TXT" (Demo.config None 0 30 false) [] =
    (Raise (ValueError "Unrecognized file extension 'txt'"), []) /\
  exists r wd',
    @init Demo.backend "clip.MP4" (Demo.config None 0 30 false) [] =
      (Ok r, EvOpen (OpenCVEncoder "clip.MP4" "mp4v" 30 1920 1080) :: wd') /\
    encoder r = OpenCVEncoder "clip.MP4" "mp4v" 30 1920 1080.
Proof.
  split; [| split].
  - destruct (proj1 (@init_selects_encoder Demo.backend "out.xyz"
                       (Demo.config None 0 30 false) []))
      as (msg & Hrun & Hmsg); [vm_compute; discriminate .. |].
    rewrite Hrun, (Hmsg eq_refl). reflexivity.
  - destruct (proj1 (@init_selects_encoder Demo.backend "clips/take.1.TXT"
                       (Demo.config None 0 30 false) []))
      as (msg & Hrun & Hmsg); [vm_compute; discriminate .. |].
    rewrite Hrun, (Hmsg eq_refl). reflexivity.
  - destruct (proj2 (@init_selects_encoder Demo.backend "clip.MP4"
                       (Demo.config None 0 30 false) []) eq_refl)
      as (r & wd' & Hrun & Henc & _).
    exists r, wd'. split; [exact Hrun | exact Henc].
Defined.

(** ** The intro *)

Lemma truthy_num_true (x : Q) : Py.truthy_num x = true <-> ~ (x == 0)%Q.
Proof.
  unfold Py.truthy_num. destruct (Qeq_bool x 0) eqn:E; simpl.
  - apply Qeq_bool_eq in E. split; [discriminate | contradiction].
  - apply Qeq_bool_neq in E. split; trivial.
Qed.

Lemma truthy_str_true (s : string) : Py.truthy_str s = true <-> s <> EmptyString.
Proof. destruct s; simpl; split; congruence. Qed.

(** C7 (as the code has it): the constructor writes the intro exactly when
    the intro text is a non-empty string and the intro time is not zero; the
    frame rate is not looked at.  Without the intro it opens the encoder and
    writes nothing.  With it, it writes [round(intro_time * fps)] frames,
    the product being the binary64 one (none when that number is not
    positive), right after opening the encoder, and every one of them is a
    blank canvas with the centred title and, when the watermark is enabled,
    the watermark: no dividers, headings or panel content. *)
Theorem init_writes_intro {B : Backend} (path : string) (c : Config.t) (enc : Encoder)
    (wd : World) :
  select_encoder path c = Ok enc ->
  (intro_wanted c = true <->
   exists t, Config.intro_text c = Some t /\ t <> EmptyString /\
             ~ (Config.intro_time c == 0)%Q) /\
  (intro_wanted c = false ->
   init path c wd = (Ok (initial c enc), wd ++ [EvOpen enc])) /\
  (forall t, intro_wanted c = true -> Config.intro_text c = Some t ->
   exists r,
     init path c wd =
       (Ok r, wd ++ [EvOpen enc] ++
              repeat (EvWrite (intro_canvas (initial c enc) t))
                     (Z.to_nat (Py.round (Py.fmul (Config.intro_time c) (Config.fps c))))) /\
     cv_ops (intro_canvas (initial c enc) t) =
       intro_title_op (initial c enc) t ::
       (if Config.watermark c then [watermark_op (initial c enc)] else [])).
Proof.
  intros Hsel. split; [| split].
  - unfold intro_wanted. destruct (Config.intro_text c) as [t |].
    + rewrite andb_true_iff, truthy_str_true, truthy_num_true. split.
      * intros [H1 H2]. exists t. auto.
      * intros (t' & Ht & H1 & H2). inversion Ht; subst. auto.
    + split; [discriminate |]. intros (t & Ht & _). discriminate.
  - intros Hw. rewrite (init_supported path c enc wd Hsel), Hw.
    destruct (Config.intro_text c); reflexivity.
  - intros t Hw Ht. rewrite (init_supported path c enc wd Hsel), Ht, Hw.
    eexists. split; [rewrite <- app_assoc; reflexivity | reflexivity].
Qed.

Lemma init_writes_intro_witness :
  exists r cv,
    @init Demo.backend "out.mp4" (Demo.config (Some "Hi"%string) (3 # 2) 3 false) [] =
      (Ok r, [EvOpen (OpenCVEncoder "out.mp4" "mp4v" 3 1920 1080);
              EvWrite cv; EvWrite cv; EvWrite cv; EvWrite cv]) /\
    List.length (cv_ops cv) = 1%nat.
Proof.
  destruct (@init_writes_intro Demo.backend "out.mp4"
              (Demo.config (Some "Hi"%string) (3 # 2) 3 false)
              (OpenCVEncoder "out.mp4" "mp4v" 3 1920 1080) [] eq_refl)
    as (_ & _ & Hrun).
  destruct (Hrun "Hi"%string eq_refl eq_refl) as (r & Hinit & Hops).
  exists r. eexists. split; [exact Hinit |].
  rewrite Hops. reflexivity.
Defined.

(** C7 fails as stated: with a duration of 2 and 30 frames per second but an
    empty intro text no intro frame is written; with a text, a duration of
    1/64 and 30 frames per second the guard passes and still no frame is
    written, since [round(30/64)] is 0; and with a frame rate of 0 the guard
    passes all the same. *)
Lemma intro_not_by_duration_and_fps :
  @init Demo.backend "out.mp4" (Demo.config (Some ""%string) 2 30 false) [] =
    (Ok (Demo.fresh (Demo.config (Some ""%string) 2 30 false)),
     [EvOpen (OpenCVEncoder "out.mp4" "mp4v" 30 1920 1080)]) /\
  (intro_wanted (Demo.config (Some "Hi"%string) (1 # 64) 30 false) = true /\
   snd (@init Demo.backend "out.mp4" (Demo.config (Some "Hi"%string) (1 # 64) 30 false) []) =
     [EvOpen (OpenCVEncoder "out.mp4" "mp4v" 30 1920 1080)]) /\
  intro_wanted (Demo.config (Some "Hi"%string) 2 0 false) = true.
Proof.
  repeat split; reflexivity.
Qed.

(** The frame count follows the rounded product: a tenth of a second at 5
    frames per second is the float 0.5 and gives no frame, and 0.9 s at 25
    gives 22 frames, where the products before rounding to a float are
    above the half and [round] would give 1 and 23; 0.7 s at 45 gives 31. *)
Lemma intro_frames_of_rounded_product :
  intro_frames (Demo.config (Some "Hi"%string) (Py.b64 (1 # 10)) 5 false) = 0%nat /\
  intro_frames (Demo.config (Some "Hi"%string) (Py.b64 (9 # 10)) 25 false) = 22%nat /\
  intro_frames (Demo.config (Some "Hi"%string) (Py.b64 (7 # 10)) 45 false) = 31%nat /\
  Py.round (Py.b64 (1 # 10) * 5) = 1 /\ Py.round (Py.b64 (9 # 10) * 25) = 23.
Proof.
  vm_compute. repeat split; reflexivity.
Qed.

(** C10: with the watermark enabled, [write_intro] runs to its end and every
    frame it hands to the encoder ends with the watermark, drawn over the
    title; [finish_frame] draws that same watermark last on any open frame
    before handing it over. *)
Theorem write_intro_watermarked {B : Backend} (r : FrameRenderer) (wd : World) (t : string) :
  Config.watermark (cfg r) = true ->
  Config.intro_text (cfg r) = Some t ->
  (exists r',
     write_intro r wd =
       (Ok tt, r', wd ++ repeat (EvWrite (intro_canvas r t)) (intro_frames (cfg r)))) /\
  cv_ops (intro_canvas r t) = [intro_title_op r t; watermark_op r] /\
  (forall c, frame r = Some c ->
     finish_frame None r wd =
       (Ok tt,
        set_frame (Some {| cv_w := cv_w c; cv_h := cv_h c; cv_bg := cv_bg c;
                           cv_ops := cv_ops c ++ [watermark_op r] |}) r,
        wd ++ [EvWrite {| cv_w := cv_w c; cv_h := cv_h c; cv_bg := cv_bg c;
                          cv_ops := cv_ops c ++ [watermark_op r] |}])).
Proof.
  intros Hw Ht. split; [| split].
  - rewrite (write_intro_run r t wd Ht). eexists. reflexivity.
  - unfold intro_canvas. cbn [cv_ops]. now rewrite Hw.
  - intros c Hf.
    unfold finish_frame, draw_watermark, encoder_write, draw_textsize, draw_op, watermark_op.
    run_m ltac:(rewrite ?Hf, ?Hw).
    destruct (textsize (caption_font r) WATERMARK) as [ww wh].
    run_m ltac:(rewrite ?Hf, ?Hw). reflexivity.
Qed.

Lemma write_intro_watermarked_witness :
  exists r' cv,
    @write_intro Demo.backend (Demo.fresh (Demo.config (Some "Hi"%string) 1 2 true)) [] =
      (Ok tt, r', [EvWrite cv; EvWrite cv]) /\
    last (cv_ops cv) (DLine [] (RGBA 0 0 0 0) 0) =
      DText (1748, 1044)%Q WATERMARK (Demo.font 16) (Some (RGBA 90 90 90 255)).
Proof.
  destruct (@write_intro_watermarked Demo.backend
              (Demo.fresh (Demo.config (Some "Hi"%string) 1 2 true)) [] "Hi"%string
              eq_refl eq_refl)
    as ((r' & Hrun) & Hops & _).
  exists r'. eexists. split; [exact Hrun |].
  rewrite Hops. reflexivity.
Defined.

(** ** The variable panels as traces of painter calls *)

Section Panels.

Context {B : Backend}.

Lemma painted_snoc (c : Canvas) (b : TextPainter) (cs : list PainterCall) (x : PainterCall) :
  {| cv_w := cv_w (painted c b cs); cv_h := cv_h (painted c b cs);
     cv_bg := cv_bg (painted c b cs);
     cv_ops := cv_ops (painted c b cs) ++ [DPaint b x] |} = painted c b (cs ++ [x]).
Proof.
  unfold painted. cbn [cv_w cv_h cv_bg cv_ops].
  now rewrite map_app, app_assoc.
Qed.

Lemma after_calls_nil (r : FrameRenderer) (c : Canvas) (b : TextPainter) :
  frame r = Some c -> after_calls r c b [] None = r.
Proof.
  intros Hf. destruct r, c. cbn in Hf. subst.
  unfold after_calls, with_ref, set_frame, painted. cbn.
  now rewrite app_nil_r.
Qed.

(** One call of the painter on a renderer in the middle of a panel. *)
Lemma painter_call_after (r : FrameRenderer) (c : Canvas) (b : TextPainter)
    (cs : list PainterCall) (anchor : option Point) (x : PainterCall) (wd : World) :
  painter_call {| box := b; calls := cs |} x (after_calls r c b cs anchor) wd =
  (Ok ({| box := b; calls := cs ++ [x] |}, call_result b (cs ++ [x])),
   after_calls r c b (cs ++ [x]) anchor, wd).
Proof.
  unfold painter_call, draw_op, after_calls, with_ref.
  destruct anchor; run_m idtac; cbn [box calls]; rewrite painted_snoc; reflexivity.
Qed.

Lemma after_calls_ref (r : FrameRenderer) (c : Canvas) (b : TextPainter)
    (cs : list PainterCall) (anchor : option Point) (q : Point) :
  set_ref_var q (after_calls r c b cs anchor) = after_calls r c b cs (Some q).
Proof. unfold after_calls, with_ref. destruct anchor; reflexivity. Qed.

Lemma draw_value_after (state : VarState.t) (var : Var) (len : Z) (r : FrameRenderer)
    (c : Canvas) (b : TextPainter) (cs : list PainterCall) (anchor : option Point)
    (iv : Z * Value) (wd : World) :
  draw_value state var len {| box := b; calls := cs |} iv (after_calls r c b cs anchor) wd =
  (Ok {| box := b; calls := fst (value_step b state var len (cs, anchor) iv) |},
   after_calls r c b (fst (value_step b state var len (cs, anchor) iv))
     (snd (value_step b state var len (cs, anchor) iv)),
   wd).
Proof.
  destruct iv as [v_idx value].
  unfold draw_value, painter_write, value_step. fold bullet_text. fold (ref_highlight state).
  unfold bind at 1. rewrite painter_call_after. cbv beta iota zeta.
  destruct (is_ref state var && (v_idx =? len - 1)).
  - unfold bind at 1. rewrite painter_call_after. cbv beta iota zeta.
    unfold bind, modify, ret. cbv beta iota zeta. rewrite after_calls_ref. reflexivity.
  - unfold bind at 1. rewrite painter_call_after. reflexivity.
Qed.

Lemma draw_values_after (state : VarState.t) (var : Var) (len : Z) (r : FrameRenderer)
    (c : Canvas) (b : TextPainter) (ivs : list (Z * Value)) :
  forall (cs : list PainterCall) (anchor : option Point) (wd : World),
    for_fold (draw_value state var len) ivs {| box := b; calls := cs |}
      (after_calls r c b cs anchor) wd =
    (Ok {| box := b; calls := fst (fold_left (value_step b state var len) ivs (cs, anchor)) |},
     after_calls r c b (fst (fold_left (value_step b state var len) ivs (cs, anchor)))
       (snd (fold_left (value_step b state var len) ivs (cs, anchor))),
     wd).
Proof.
  induction ivs as [| iv ivs IH]; intros cs anchor wd.
  - reflexivity.
  - cbn [for_fold fold_left]. unfold bind at 1. rewrite draw_value_after.
    destruct (value_step b state var len (cs, anchor) iv) as [cs' anchor'].
    cbn [fst snd]. apply IH.
Qed.

Lemma draw_other_var_after (state : VarState.t) (r : FrameRenderer) (c : Canvas)
    (b : TextPainter) (cs : list PainterCall) (anchor : option Point)
    (iv : Z * (Var * VarValues)) (wd : World) :
  draw_other_var state {| box := b; calls := cs |} iv (after_calls r c b cs anchor) wd =
  (Ok {| box := b; calls := fst (var_step b state (cs, anchor) iv) |},
   after_calls r c b (fst (var_step b state (cs, anchor) iv))
     (snd (var_step b state (cs, anchor) iv)),
   wd).
Proof.
  destruct iv as [idx [var vals]].
  unfold draw_other_var, var_step, painter_write.
  destruct (ignored vals); [reflexivity |].
  destruct (0 <? idx).
  - unfold bind at 1. unfold bind at 1. rewrite painter_call_after. cbv beta iota zeta.
    unfold ret at 1. cbv beta iota zeta.
    unfold bind at 1. rewrite painter_call_after. cbv beta iota zeta.
    apply draw_values_after.
  - unfold bind at 1. unfold ret at 1. cbv beta iota zeta.
    unfold bind at 1. rewrite painter_call_after. cbv beta iota zeta.
    apply draw_values_after.
Qed.

Lemma draw_other_vars_loop (state : VarState.t) (r : FrameRenderer) (c : Canvas)
    (b : TextPainter) (ivs : list (Z * (Var * VarValues))) :
  forall (cs : list PainterCall) (anchor : option Point) (wd : World),
    for_fold (draw_other_var state) ivs {| box := b; calls := cs |}
      (after_calls r c b cs anchor) wd =
    (Ok {| box := b; calls := fst (fold_left (var_step b state) ivs (cs, anchor)) |},
     after_calls r c b (fst (fold_left (var_step b state) ivs (cs, anchor)))
       (snd (fold_left (var_step b state) ivs (cs, anchor))),
     wd).
Proof.
  induction ivs as [| iv ivs IH]; intros cs anchor wd.
  - reflexivity.
  - cbn [for_fold fold_left]. unfold bind at 1. rewrite draw_other_var_after.
    destruct (var_step b state (cs, anchor) iv) as [cs' anchor'].
    cbn [fst snd]. apply IH.
Qed.

(** [draw_other_vars] on an open frame with the sizes known: it draws the
    calls of the trace and stores the anchor the trace captures. *)
Lemma draw_other_vars_run (state : VarState.t) (r : FrameRenderer) (c : Canvas) (z : Sizes)
    (wd : World) :
  frame r = Some c -> sizes r = Some z ->
  draw_other_vars state r wd =
  (Ok tt,
   after_calls r c (ovars_box z) (fst (other_vars_trace (ovars_box z) state))
     (snd (other_vars_trace (ovars_box z) state)),
   wd).
Proof.
  intros Hf Hs. unfold draw_other_vars, other_vars_painter.
  unfold bind at 1. unfold bind at 1. unfold get. cbv beta iota zeta.
  unfold bind at 1. rewrite Hs. unfold need, ret at 1. cbv beta iota zeta.
  pose proof (draw_other_vars_loop state r c (ovars_box z)
                (Py.enumerate (VarState.other_history state)) [] None wd) as H.
  rewrite (after_calls_nil r c _ Hf) in H.
  change (new_painter (ovars_x z) (ovars_y z) (ovars_cols z) (ovars_rows z) None None)
    with {| box := ovars_box z; calls := [] |}.
  unfold bind. rewrite H. reflexivity.
Qed.

Lemma draw_last_var_run (state : VarState.t) (r : FrameRenderer) (c : Canvas) (z : Sizes)
    (wd : World) :
  frame r = Some c -> sizes r = Some z ->
  draw_last_var state r wd =
  (Ok tt,
   set_last_var (source_anchor z state)
     (set_frame (Some (painted c (vars_box z) (last_var_calls state))) r),
   wd).
Proof.
  intros Hf Hs.
  unfold draw_last_var, painter_write, painter_call, draw_op, source_anchor, vars_box,
    last_var_calls, painted, new_painter.
  run_m ltac:(rewrite ?Hf, ?Hs). cbn [box calls app map firstn].
  rewrite <- !app_assoc. reflexivity.
Qed.

Lemma draw_var_ref_run (state : VarState.t) (r : FrameRenderer) (c : Canvas)
    (src dst : Point) (wd : World) :
  frame r = Some c -> last_var r = Some src -> ref_var r = Some dst ->
  draw_var_ref state r wd =
  (Ok tt, set_frame (Some (add_op c (connector r state src dst))) r, wd).
Proof.
  intros Hf Hl Hr. destruct src as [lx ly], dst as [rx ry].
  unfold draw_var_ref, draw_textsize, draw_op, connector, add_op.
  run_m ltac:(rewrite ?Hf, ?Hl, ?Hr).
  destruct (textsize (body_font r) " ") as [sw sh].
  run_m ltac:(rewrite ?Hf, ?Hl, ?Hr). reflexivity.
Qed.

Lemma draw_var_ref_no_anchor (state : VarState.t) (r : FrameRenderer) (src : Point)
    (wd : World) :
  last_var r = Some src -> ref_var r = None ->
  draw_var_ref state r wd = (Raise TypeError, r, wd).
Proof.
  intros Hl Hr. destruct src as [lx ly]. unfold draw_var_ref.
  run_m ltac:(rewrite ?Hl, ?Hr). reflexivity.
Qed.

(** [draw_variables] on an open frame with the sizes known. *)
Lemma draw_variables_run (state : VarState.t) (r : FrameRenderer) (c : Canvas) (z : Sizes)
    (wd : World) :
  frame r = Some c -> sizes r = Some z ->
  let captured := snd (other_vars_trace (ovars_box z) state) in
  let r2 := set_last_var (source_anchor z state)
              (set_frame (Some (panels_canvas c z state)) (with_ref captured r)) in
  draw_variables state r wd =
  match VarState.ref state with
  | None => (Ok tt, r2, wd)
  | Some _ =>
      match dest_anchor r captured with
      | Some dst =>
          (Ok tt,
           set_frame (Some (add_op (panels_canvas c z state)
                              (connector r state (source_anchor z state) dst))) r2,
           wd)
      | None => (Raise TypeError, r2, wd)
      end
  end.
Proof.
  intros Hf Hs captured r2.
  unfold draw_variables. unfold bind at 1.
  rewrite (draw_other_vars_run state r c z wd Hf Hs). cbv beta iota zeta.
  fold captured.
  set (cs := fst (other_vars_trace (ovars_box z) state)).
  set (r1 := after_calls r c (ovars_box z) cs captured).
  assert (Hf1 : frame r1 = Some (painted c (ovars_box z) cs))
    by (unfold r1, after_calls, with_ref; destruct captured; reflexivity).
  assert (Hs1 : sizes r1 = Some z)
    by (unfold r1, after_calls, with_ref; destruct captured; exact Hs).
  unfold bind at 1. rewrite (draw_last_var_run state r1 _ z wd Hf1 Hs1). cbv beta iota zeta.
  assert (Hr2 : set_last_var (source_anchor z state)
                  (set_frame (Some (painted (painted c (ovars_box z) cs) (vars_box z)
                                      (last_var_calls state))) r1) = r2)
    by (unfold r2, r1, after_calls, with_ref, panels_canvas; destruct captured; reflexivity).
  rewrite Hr2.
  destruct (VarState.ref state) as [n |]; [| reflexivity].
  destruct (dest_anchor r captured) as [dst |] eqn:Ed.
  - rewrite (draw_var_ref_run state r2 (panels_canvas c z state) (source_anchor z state) dst wd).
    + unfold r2, with_ref, connector. destruct captured; reflexivity.
    + reflexivity.
    + reflexivity.
    + unfold r2, with_ref, dest_anchor in *. destruct captured; exact Ed.
  - apply (draw_var_ref_no_anchor state r2 (source_anchor z state) wd).
    + reflexivity.
    + unfold r2, with_ref, dest_anchor in *. destruct captured; [discriminate | exact Ed].
Qed.



End Panels.

(** ** Anchors *)

Section Anchors.

Context {B : Backend}.

Lemma value_fold_keeps (b : TextPainter) (state : VarState.t) (var : Var) (len : Z)
    (ivs : list (Z * Value)) :
  forall cs anchor,
    anchor <> None ->
    snd (fold_left (value_step b state var len) ivs (cs, anchor)) <> None.
Proof.
  induction ivs as [| [i v] ivs IH]; intros cs anchor Ha; [exact Ha |].
  cbn [fold_left]. unfold value_step at 2.
  destruct (is_ref state var && (i =? len - 1)); apply IH; [discriminate | exact Ha].
Qed.

Lemma var_fold_keeps (b : TextPainter) (state : VarState.t)
    (ivs : list (Z * (Var * VarValues))) :
  forall cs anchor,
    anchor <> None ->
    snd (fold_left (var_step b state) ivs (cs, anchor)) <> None.
Proof.
  induction ivs as [| [i [var vals]] ivs IH]; intros cs anchor Ha; [exact Ha |].
  cbn [fold_left].
  destruct (var_step b state (cs, anchor) (i, (var, vals))) as [cs' anchor'] eqn:E.
  apply IH. unfold var_step in E. destruct (ignored vals).
  - inversion E; subst. exact Ha.
  - pose proof (value_fold_keeps b state var (Z.of_nat (List.length (values vals)))
                  (Py.enumerate (values vals))
                  ((if 0 <? i then cs ++ [PWrite (Str.nl ++ Str.nl) None false None] else cs)
                     ++ [PWrite (var_name var ++ ":") None false None]) anchor Ha) as H.
    rewrite E in H. exact H.
Qed.

(** The last recorded value of the referenced variable captures an anchor. *)
Lemma values_capture (b : TextPainter) (state : VarState.t) (var : Var) (vs : list Value) :
  is_ref state var = true ->
  vs <> [] ->
  forall i cs anchor,
    snd (fold_left (value_step b state var (i + Z.of_nat (List.length vs)))
           (Py.enumerate_from i vs) (cs, anchor)) <> None.
Proof.
  intros Hr. induction vs as [| v vs IH]; intros Hne i cs anchor; [congruence |].
  cbn [Py.enumerate_from fold_left]. unfold value_step at 2. rewrite Hr. cbn [andb].
  destruct vs as [| v' vs'].
  - cbn [List.length]. replace (i =? i + Z.of_nat 1 - 1) with true
      by (symmetry; apply Z.eqb_eq; lia).
    cbn. discriminate.
  - replace (i + Z.of_nat (List.length (v :: v' :: vs')))
      with ((i + 1) + Z.of_nat (List.length (v' :: vs')))
      by (cbn [List.length]; lia).
    destruct (i =? i + 1 + Z.of_nat (List.length (v' :: vs')) - 1); apply IH; discriminate.
Qed.

Lemma vars_capture (b : TextPainter) (state : VarState.t) (var : Var) (vals : VarValues)
    (hist : list (Var * VarValues)) :
  is_ref state var = true ->
  ignored vals = false ->
  values vals <> [] ->
  In (var, vals) hist ->
  forall i cs anchor,
    snd (fold_left (var_step b state) (Py.enumerate_from i hist) (cs, anchor)) <> None.
Proof.
  intros Hr Hi Hv. induction hist as [| h hist IH]; intros Hin i cs anchor; [destruct Hin |].
  cbn [Py.enumerate_from fold_left].
  destruct Hin as [-> | Hin].
  - destruct (var_step b state (cs, anchor) (i, (var, vals))) as [cs' anchor'] eqn:E.
    apply var_fold_keeps.
    unfold var_step in E. rewrite Hi in E.
    pose proof (values_capture b state var (values vals) Hr Hv 0
                  ((if 0 <? i then cs ++ [PWrite (Str.nl ++ Str.nl) None false None] else cs)
                     ++ [PWrite (var_name var ++ ":") None false None]) anchor) as H.
    cbn [Z.add] in H. unfold Py.enumerate in E. rewrite E in H. exact H.
  - destruct (var_step b state (cs, anchor) (i, h)) as [cs' anchor'].
    apply IH. exact Hin.
Qed.

End Anchors.

(** X22: on an open frame with the sizes known,
    [draw_variables] draws no connector when the state has no reference; it
    only adds the painter calls of the two panels.  When the reference names
    a tracked variable that is not ignored and has a recorded value, it
    succeeds and draws the connector last, from the source anchor returned
    by the action label of this pass to the destination anchor captured at
    the last value of that variable in this pass; both are functions of the
    state and the sizes alone, and they are the anchors the renderer holds
    afterwards. *)
Theorem draw_variables_connector {B : Backend} (state : VarState.t) (r : FrameRenderer)
    (c : Canvas) (z : Sizes) (wd : World) :
  frame r = Some c ->
  sizes r = Some z ->
  (VarState.ref state = None ->
   exists r',
     draw_variables state r wd = (Ok tt, r', wd) /\
     frame r' = Some (panels_canvas c z state)) /\
  (forall n var vals,
     VarState.ref state = Some n ->
     In (var, vals) (VarState.other_history state) ->
     var_name var = n -> ignored vals = false -> values vals <> [] ->
     exists r' dst,
       snd (other_vars_trace (ovars_box z) state) = Some dst /\
       draw_variables state r wd = (Ok tt, r', wd) /\
       frame r' = Some (add_op (panels_canvas c z state)
                          (connector r state (source_anchor z state) dst)) /\
       last_var r' = Some (source_anchor z state) /\
       ref_var r' = Some dst).
Proof.
  intros Hf Hs. pose proof (draw_variables_run state r c z wd Hf Hs) as Hrun.
  cbv zeta in Hrun. split.
  - intros Hn. rewrite Hn in Hrun. eexists. split; [exact Hrun | reflexivity].
  - intros n var vals Hn Hin Hname Hi Hv. rewrite Hn in Hrun.
    assert (Href : is_ref state var = true)
      by (unfold is_ref; rewrite Hn; now apply String.eqb_eq).
    pose proof (vars_capture (ovars_box z) state var vals (VarState.other_history state)
                  Href Hi Hv Hin 0 [] None) as Hcap.
    fold (Py.enumerate (VarState.other_history state)) in Hcap.
    fold (other_vars_trace (ovars_box z) state) in Hcap.
    destruct (snd (other_vars_trace (ovars_box z) state)) as [dst |] eqn:Ec; [| congruence].
    cbn [dest_anchor] in Hrun.
    eexists. exists dst. split; [reflexivity |]. split; [exact Hrun |].
    repeat split.
Qed.

Lemma draw_variables_connector_witness :
  exists r' dst,
    @draw_variables Demo.backend Demo.ref_state
      (Demo.started (Demo.config None 0 30 false)) [] = (Ok tt, r', []) /\
    ref_var r' = Some dst /\
    dst = (1305, 430)%Q.
Proof.
  pose (r := Demo.started (Demo.config None 0 30 false)).
  destruct (frame r) as [c |] eqn:Ef; [| vm_compute in Ef; discriminate].
  destruct (sizes r) as [z |] eqn:Es; [| vm_compute in Es; discriminate].
  destruct (proj2 (@draw_variables_connector Demo.backend Demo.ref_state r c z [] Ef Es)
              "y"%string {| var_name := "y" |}
              {| ignored := false; values := [VInt 1; VInt 2] |}
              eq_refl (or_introl eq_refl) eq_refl eq_refl ltac:(discriminate))
    as (r' & dst & Hcap & Hrun & _ & _ & Hr).
  exists r', dst. split; [exact Hrun |]. split; [exact Hr |].
  vm_compute in Es. injection Es as <-.
  vm_compute in Hcap. injection Hcap as <-. reflexivity.
Defined.

(** C4, the code at the failing input: the anchors, which [__init__]
    declares under the comment [# Per-frame positions], are attributes that
    nothing resets, and [draw_variables] tests the reference alone.  After a
    frame whose state refers to [y] is finished, the renderer still holds
    both anchors; in the next frame the state refers to [y] again but the
    history of [y] is ignored, so this pass captures no destination anchor,
    and the connector is drawn all the same, to the anchor of the frame
    before. *)
Lemma connector_to_stale_anchor :
  exists r1 r2 r3 wd1 z c3 dst,
    @finish_frame Demo.backend (Some Demo.ref_state)
      (Demo.started (Demo.config None 0 30 false)) [] = (Ok tt, r1, wd1) /\
    ref_var r1 = Some dst /\ last_var r1 <> None /\
    @start_frame Demo.backend r1 wd1 = (Ok tt, r2, wd1) /\
    sizes r2 = Some z /\
    snd (@other_vars_trace Demo.backend (ovars_box z) Demo.ignored_ref_state) = None /\
    @draw_variables Demo.backend Demo.ignored_ref_state r2 wd1 = (Ok tt, r3, wd1) /\
    frame r3 = Some c3 /\
    last (cv_ops c3) (DLine [] (RGBA 0 0 0 0) 0) =
      @connector Demo.backend r2 Demo.ignored_ref_state
        (@source_anchor Demo.backend z Demo.ignored_ref_state) dst.
Proof.
  do 7 eexists.
  split; [vm_compute; reflexivity |].
  split; [reflexivity |].
  split; [discriminate |].
  split; [vm_compute; reflexivity |].
  split; [reflexivity |].
  split; [reflexivity |].
  split; [vm_compute; reflexivity |].
  split; [reflexivity |].
  vm_compute. reflexivity.
Qed.

(** ** The other-variables panel *)

(** A variable whose history is flagged ignored is skipped: the painter
    receives nothing for it and the renderer is left as it was. *)
Lemma ignored_var_draws_nothing {B : Backend} (state : VarState.t) (p : Painter) (idx : Z)
    (var : Var) (vals : VarValues) (r : FrameRenderer) (wd : World) :
  ignored vals = true ->
  draw_other_var state p (idx, (var, vals)) r wd = (Ok p, r, wd).
Proof.
  intros Hi. unfold draw_other_var. rewrite Hi. reflexivity.
Qed.

(** The separator goes by the position in [other_history], skipped variables
    counted: a variable that is drawn gets it exactly when it is not at
    position 0. *)
Lemma separator_by_position {B : Backend} (b : TextPainter) (state : VarState.t)
    (cs : list PainterCall) (anchor : option Point) (idx : Z) (var : Var) :
  fst (var_step b state (cs, anchor) (idx, (var, {| ignored := false; values := [] |}))) =
  (if 0 <? idx then cs ++ [PWrite (Str.nl ++ Str.nl) None false None] else cs)
    ++ [PWrite (var_name var ++ ":") None false None].
Proof. reflexivity. Qed.

(** C6, the code at the failing input: the history holds [a], ignored, and
    then [b].  Nothing is written for [a]; but [b], the first variable
    actually drawn, is at position 1, so the first thing the painter is
    asked to write is the blank-line separator. *)
Theorem draw_other_vars_leading_separator :
  exists r' c z,
    frame (Demo.started (Demo.config None 0 30 false)) = Some c /\
    sizes (Demo.started (Demo.config None 0 30 false)) = Some z /\
    @draw_other_vars Demo.backend Demo.first_ignored_state
      (Demo.started (Demo.config None 0 30 false)) [] = (Ok tt, r', []) /\
    frame r' =
      Some (@painted c (ovars_box z)
              [ PWrite (Str.nl ++ Str.nl) None false None;
                PWrite "b:" None false None;
                PWrite bullet_text None false None;
                PIrepr (VInt 2) None ]).
Proof.
  do 3 eexists.
  split; [vm_compute; reflexivity |].
  split; [vm_compute; reflexivity |].
  split; [vm_compute; reflexivity |].
  vm_compute. reflexivity.
Qed.

(** ** Finishing and closing *)

Section Finishing.

Context {B : Backend}.

(** The end of [finish_frame]: the watermark when enabled, then the
    hand-over; the frame stays in the renderer. *)
Lemma finish_tail (wm : bool) (r : FrameRenderer) (c : Canvas) (wd : World) :
  frame r = Some c ->
  exists r' c',
    ((if wm then draw_watermark else ret tt) ;; encoder_write)%monad r wd =
      (Ok tt, r', wd ++ [EvWrite c']) /\
    frame r' = Some c'.
Proof.
  intros Hf. destruct wm.
  - unfold draw_watermark, encoder_write, draw_textsize, draw_op.
    run_m ltac:(rewrite ?Hf).
    destruct (textsize (caption_font r) WATERMARK) as [ww wh].
    run_m ltac:(rewrite ?Hf). eexists. eexists. split; reflexivity.
  - unfold encoder_write. run_m ltac:(rewrite ?Hf).
    exists r, c. split; [reflexivity | exact Hf].
Qed.

(** [draw_variables] on an open frame returns with the frame still open, or
    raises; the encoder sees nothing either way. *)
Lemma draw_variables_outcome (state : VarState.t) (r : FrameRenderer) (c : Canvas)
    (wd : World) :
  frame r = Some c ->
  (exists r' c', draw_variables state r wd = (Ok tt, r', wd) /\ frame r' = Some c') \/
  (exists e r', draw_variables state r wd = (Raise e, r', wd)).
Proof.
  intros Hf. destruct (sizes r) as [z |] eqn:Hs.
  - rewrite (draw_variables_run state r c z wd Hf Hs).
    destruct (VarState.ref state).
    + destruct (dest_anchor r (snd (other_vars_trace (ovars_box z) state))).
      * left. eexists. eexists. split; reflexivity.
      * right. eexists. eexists. reflexivity.
    + left. eexists. eexists. split; reflexivity.
  - right. exists TypeError, r.
    unfold draw_variables, draw_other_vars, other_vars_painter.
    run_m ltac:(rewrite ?Hs). reflexivity.
Qed.

(** [finish_frame] with a variable state on an open frame: the variables,
    then the end of [finish_frame], unless the variables raise. *)
Lemma finish_frame_open (state : VarState.t) (r : FrameRenderer) (c : Canvas) (wd : World) :
  frame r = Some c ->
  finish_frame (Some state) r wd =
  match draw_variables state r wd with
  | (Ok _, r1, wd1) =>
      ((if Config.watermark (cfg r) then draw_watermark else ret tt) ;; encoder_write)%monad
        r1 wd1
  | (Raise e, r1, wd1) => (Raise e, r1, wd1)
  end.
Proof.
  intros Hf. unfold finish_frame. unfold bind at 1, get. rewrite Hf.
  unfold bind at 1. destruct (draw_variables state r wd) as [[[[] | e] r1] wd1]; reflexivity.
Qed.

Lemma finish_frame_open_none (r : FrameRenderer) (c : Canvas) (wd : World) :
  frame r = Some c ->
  finish_frame None r wd =
  ((if Config.watermark (cfg r) then draw_watermark else ret tt) ;; encoder_write)%monad r wd.
Proof.
  intros Hf. unfold finish_frame. unfold bind at 1, get. rewrite Hf. reflexivity.
Qed.

(** The end of [finish_frame] in full. *)
Lemma finish_tail_run (wm : bool) (r : FrameRenderer) (c : Canvas) (wd : World) :
  frame r = Some c ->
  ((if wm then draw_watermark else ret tt) ;; encoder_write)%monad r wd =
  (Ok tt,
   (if wm then set_frame (Some (add_op c (watermark_op r))) r else r),
   wd ++ [EvWrite (if wm then add_op c (watermark_op r) else c)]).
Proof.
  intros Hf. destruct wm.
  - unfold draw_watermark, encoder_write, draw_textsize, draw_op, watermark_op, add_op.
    run_m ltac:(rewrite ?Hf).
    destruct (textsize (caption_font r) WATERMARK) as [ww wh].
    run_m ltac:(rewrite ?Hf). reflexivity.
  - unfold encoder_write. run_m ltac:(rewrite ?Hf). reflexivity.
Qed.






End Finishing.




(** * Further properties of the renderer *)

(** ** Opening a frame *)

Section Opening.

Context {B : Backend}.

(** [start_frame] up to the sizes: a new canvas with the dividers and
    headings, whatever frame the renderer held. *)
Lemma start_frame_chrome (r : FrameRenderer) (wd : World) :
  start_frame r wd =
  (if negb (sizes_populated r)
   then calc_sizes ;; modify (set_sizes_populated true)
   else ret tt)%monad (set_frame (Some (chrome_canvas r)) r) wd.
Proof.
  unfold start_frame, new_frame, draw_text_center, draw_textsize, draw_op,
    chrome_canvas, chrome_ops, heading_op.
  unfold bind at 1, modify at 1. cbv beta iota zeta.
  unfold bind at 1, get at 1. cbv beta iota zeta. proj_simpl.
  destruct (textsize (head_font r) "Output") as [w1 h1].
  destruct (textsize (head_font r) "Last Variable") as [w2 h2].
  destruct (textsize (head_font r) "Other Variables") as [w3 h3].
  unfold bind at 1. proj_simpl. cbv beta iota zeta.
  unfold bind at 1. unfold bind at 1. proj_simpl. cbv beta iota zeta. proj_simpl.
  unfold bind at 1. proj_simpl. cbv beta iota zeta.
  unfold bind at 1. unfold bind at 1. proj_simpl. cbv beta iota zeta. proj_simpl.
  unfold bind at 1. proj_simpl. cbv beta iota zeta.
  unfold bind at 1. unfold bind at 1. proj_simpl. cbv beta iota zeta. proj_simpl.
  reflexivity.
Qed.

(** [calc_sizes] in full: it needs an open frame, a body glyph of non-zero
    width and a line height that is not zero. *)
Lemma calc_sizes_run (r : FrameRenderer) (wd : World) :
  calc_sizes r wd =
  match frame r with
  | None => (Raise AttributeError, r, wd)
  | Some _ =>
      if Qeq_bool (inject_Z (glyph_width r)) 0 || Qeq_bool (measured_line_height r) 0
      then (Raise ZeroDivisionError, r, wd)
      else (Ok tt, set_sizes (measured_sizes r) r, wd)
  end.
Proof.
  unfold calc_sizes, draw_textsize, div, fdiv, floordiv, glyph_width, measured_line_height,
    measured_sizes, sizes_from.
  destruct (frame r) as [c |] eqn:Hf.
  - run_m ltac:(rewrite ?Hf).
    destruct (textsize (body_font r) "A") as [gw gh].
    run_m ltac:(rewrite ?Hf).
    destruct (textsize (head_font r) "A") as [hw hh].
    run_m ltac:(rewrite ?Hf).
    destruct (textsize (body_font r) "`^Ag") as [mw mh].
    run_m ltac:(rewrite ?Hf).
    destruct (textsize (caption_font r) "1p") as [cw ch].
    cbn [fst snd].
    destruct (Qeq_bool (inject_Z gw) 0) eqn:Eg.
    + run_m ltac:(rewrite ?Hf, ?Eg). reflexivity.
    + destruct (Qeq_bool (Py.fmul (inject_Z mh) (Config.line_height (cfg r))) 0) eqn:El;
        run_m ltac:(rewrite ?Hf, ?Eg, ?El); reflexivity.
  - run_m ltac:(rewrite ?Hf). reflexivity.
Qed.

(** [start_frame] in full. *)
Lemma start_frame_run (r : FrameRenderer) (wd : World) :
  start_frame r wd =
  if sizes_populated r
  then (Ok tt, set_frame (Some (chrome_canvas r)) r, wd)
  else if Qeq_bool (inject_Z (glyph_width r)) 0 || Qeq_bool (measured_line_height r) 0
  then (Raise ZeroDivisionError, set_frame (Some (chrome_canvas r)) r, wd)
  else (Ok tt,
        set_sizes_populated true
          (set_sizes (measured_sizes r) (set_frame (Some (chrome_canvas r)) r)),
        wd).
Proof.
  rewrite start_frame_chrome. destruct (sizes_populated r); [reflexivity |].
  cbn [negb]. unfold bind. rewrite calc_sizes_run. proj_simpl.
  change (glyph_width (set_frame (Some (chrome_canvas r)) r)) with (glyph_width r).
  change (measured_line_height (set_frame (Some (chrome_canvas r)) r))
    with (measured_line_height r).
  destruct (Qeq_bool (inject_Z (glyph_width r)) 0 || Qeq_bool (measured_line_height r) 0);
    reflexivity.
Qed.

End Opening.

(** X1: a [start_frame] that still has to compute the sizes raises
    [ZeroDivisionError] when the body glyph has width zero or the line
    height is zero: by then the new frame with its dividers and headings is
    in place, the sizes still count as not populated, the encoder has seen
    nothing, and every later [start_frame] fails in the same way. *)
Theorem start_frame_zero_division {B : Backend} (r : FrameRenderer) (wd : World) :
  sizes_populated r = false ->
  glyph_width r = 0 \/ (measured_line_height r == 0)%Q ->
  exists r',
    start_frame r wd = (Raise ZeroDivisionError, r', wd) /\
    frame r' = Some (chrome_canvas r) /\
    sizes_populated r' = false /\
    forall wd', start_frame r' wd' = (Raise ZeroDivisionError, r', wd').
Proof.
  intros Hp Hz.
  assert (Hc : Qeq_bool (inject_Z (glyph_width r)) 0 || Qeq_bool (measured_line_height r) 0
               = true).
  { apply orb_true_iff. destruct Hz as [Hg | Hl].
    - left. rewrite Hg. reflexivity.
    - right. now apply Qeq_eq_bool. }
  exists (set_frame (Some (chrome_canvas r)) r).
  split; [rewrite start_frame_run, Hp, Hc; reflexivity |].
  split; [reflexivity |]. split; [exact Hp |].
  intros wd'. rewrite start_frame_run. proj_simpl. rewrite Hp.
  change (glyph_width (set_frame (Some (chrome_canvas r)) r)) with (glyph_width r).
  change (measured_line_height (set_frame (Some (chrome_canvas r)) r))
    with (measured_line_height r).
  rewrite Hc. reflexivity.
Qed.

Lemma start_frame_zero_division_witness :
  exists r',
    @start_frame Demo.backend (Demo.fresh (Demo.config_body (Demo.font 1) 1)) [] =
      (Raise ZeroDivisionError, r', []) /\
    sizes_populated r' = false.
Proof.
  destruct (@start_frame_zero_division Demo.backend
              (Demo.fresh (Demo.config_body (Demo.font 1) 1)) [] eq_refl (or_introl eq_refl))
    as (r' & Hrun & _ & Hp & _).
  exists r'. split; [exact Hrun | exact Hp].
Defined.

(** X2: a [start_frame] that returns has written nothing to the encoder, leaves
    the sizes populated and the anchors as they were, and holds a new frame
    with the dividers and headings only.  Whatever is drawn on that frame
    afterwards, the next [start_frame] brings the renderer back to this very
    state: sizes are computed once and a frame never shows through in the
    next one. *)
Theorem start_frame_resets_frame {B : Backend} (r r1 : FrameRenderer) (wd wd1 : World) :
  start_frame r wd = (Ok tt, r1, wd1) ->
  wd1 = wd /\
  sizes_populated r1 = true /\
  frame r1 = Some (chrome_canvas r) /\
  List.length (cv_ops (chrome_canvas r)) = 6%nat /\
  (sizes_populated r = true -> sizes r1 = sizes r) /\
  last_var r1 = last_var r /\ ref_var r1 = ref_var r /\
  forall f wd', start_frame (set_frame f r1) wd' = (Ok tt, r1, wd').
Proof.
  intros Hrun. rewrite start_frame_run in Hrun.
  destruct (sizes_populated r) eqn:Hp.
  - inversion Hrun; subst.
    repeat (split; [first [reflexivity | exact Hp | intros _; reflexivity] |]).
    intros f wd'. rewrite start_frame_run. proj_simpl. rewrite Hp. reflexivity.
  - destruct (Qeq_bool (inject_Z (glyph_width r)) 0 || Qeq_bool (measured_line_height r) 0);
      [discriminate |].
    inversion Hrun; subst.
    repeat (split; [first [reflexivity | discriminate] |]).
    intros f wd'. rewrite start_frame_run. reflexivity.
Qed.

Lemma start_frame_resets_frame_witness :
  exists r1,
    @start_frame Demo.backend (Demo.fresh (Demo.config None 0 30 false)) [] = (Ok tt, r1, []) /\
    @start_frame Demo.backend (set_frame None r1) [] = (Ok tt, r1, []).
Proof.
  destruct (@start_frame Demo.backend (Demo.fresh (Demo.config None 0 30 false)) [])
    as [[[[] | e] r1] wd1] eqn:Hrun; [| vm_compute in Hrun; discriminate].
  destruct (@start_frame_resets_frame Demo.backend _ r1 [] wd1 Hrun)
    as (Hwd & _ & _ & _ & _ & _ & _ & Hagain).
  subst wd1. exists r1. split; [reflexivity | apply Hagain].
Defined.

(** ** More of the layout *)






(** ** More of the viewport *)

Section ViewportMore.

Context {Line : Type}.

Lemma window_start_nonneg (r : Q) (cur_line : Z) : 0 <= fst (window r cur_line).
Proof.
  unfold window. destruct (naive_window r (cur_line - 1)) as [s e].
  destruct (Z.ltb_spec s 0); simpl; lia.
Qed.

Lemma slice_map {A C : Type} (f : A -> C) (l : list A) (s e : Z) :
  Py.slice (map f l) s e = map f (Py.slice l s e).
Proof.
  unfold Py.slice. rewrite length_map, skipn_map, firstn_map. reflexivity.
Qed.

Lemma slice_nth_error_inv {A : Type} (l : list A) (s e : Z) (k : nat) (x : A) :
  0 <= s ->
  nth_error (Py.slice l s e) k = Some x ->
  nth_error l (Z.to_nat (Z.min s (Z.of_nat (List.length l))) + k) = Some x.
Proof.
  intros Hs Hk. unfold Py.slice in Hk. rewrite nth_error_firstn in Hk.
  destruct (k <? _)%nat; [| discriminate].
  rewrite nth_error_skipn in Hk.
  unfold Py.slice_index in Hk. destruct (Z.ltb_spec s 0); [lia | exact Hk].
Qed.

Lemma enumerate_from_snd {A : Type} (l : list A) :
  forall i, map snd (Py.enumerate_from i l) = l.
Proof.
  induction l as [| x t IH]; intros i; [reflexivity |].
  cbn [Py.enumerate_from map snd]. now rewrite IH.
Qed.

Lemma hlines_fst (lines : list Line) (cur_idx : Z) : map fst (hlines lines cur_idx) = lines.
Proof.
  unfold hlines, Py.enumerate. rewrite map_map. cbn [fst].
  apply enumerate_from_snd.
Qed.

(** X5: the window of [draw_code], for any row count and any current line, in or
    out of the file: its start index is never negative; the lines in it are
    a slice of the file, unmodified and in order; and a line in it is
    flagged only if it is the current line, so at most one position of the
    window is highlighted. *)
Theorem display_lines_is_a_slice (r : Q) (lines : list Line) (cur_line : Z) :
  0 <= fst (window r cur_line) /\
  map fst (display_lines r lines cur_line) =
    Py.slice lines (fst (window r cur_line)) (snd (window r cur_line)) /\
  forall k l,
    nth_error (display_lines r lines cur_line) k = Some (l, true) ->
    Z.of_nat k =
      cur_line - 1 - Z.min (fst (window r cur_line)) (Z.of_nat (List.length lines)) /\
    nth_error lines (Z.to_nat (cur_line - 1)) = Some l.
Proof.
  pose proof (window_start_nonneg r cur_line) as Hs.
  unfold display_lines. destruct (window r cur_line) as [s e]. cbn [fst snd] in *.
  split; [exact Hs |]. split.
  - rewrite <- slice_map. now rewrite hlines_fst.
  - intros k l Hk.
    apply (slice_nth_error_inv _ s e k _ Hs) in Hk. rewrite hlines_length in Hk.
    set (j := (Z.to_nat (Z.min s (Z.of_nat (List.length lines))) + k)%nat) in *.
    destruct (nth_error lines j) as [x |] eqn:Ex.
    + rewrite (hlines_nth_error lines (cur_line - 1) j x Ex) in Hk.
      inversion Hk as [[Hx Hj]]. subst x. apply Z.eqb_eq in Hj.
      split; [unfold j in Hj; lia |].
      replace (Z.to_nat (cur_line - 1)) with j by lia. exact Ex.
    + assert (Hnone : nth_error (hlines lines (cur_line - 1)) j = None).
      { apply nth_error_None. rewrite hlines_length. now apply nth_error_None. }
      rewrite Hnone in Hk. discriminate.
Qed.

End ViewportMore.

(** ** Drawing the code *)

Section Code.

Context {B : Backend}.





End Code.



(** ** More of finishing and closing *)

(** X7: without a variable state, [finish_frame] on a held frame always returns:
    it draws nothing on the variable panels and no connector, adds the
    watermark exactly when the watermark is enabled, hands that frame to the
    encoder once, and leaves the sizes and both anchors as they were. *)
Theorem finish_frame_without_state {B : Backend} (r : FrameRenderer) (c : Canvas)
    (wd : World) :
  frame r = Some c ->
  exists r',
    finish_frame None r wd =
      (Ok tt, r',
       wd ++ [EvWrite (if Config.watermark (cfg r) then add_op c (watermark_op r) else c)]) /\
    frame r' = Some (if Config.watermark (cfg r) then add_op c (watermark_op r) else c) /\
    sizes r' = sizes r /\ last_var r' = last_var r /\ ref_var r' = ref_var r.
Proof.
  intros Hf. rewrite (finish_frame_open_none r c wd Hf).
  rewrite (finish_tail_run (Config.watermark (cfg r)) r c wd Hf).
  eexists. split; [reflexivity |].
  destruct (Config.watermark (cfg r)); repeat split; exact Hf.
Qed.

Lemma finish_frame_without_state_witness :
  exists r' cv,
    @finish_frame Demo.backend None (Demo.started (Demo.config None 0 30 true)) [] =
      (Ok tt, r', [EvWrite cv]).
Proof.
  pose (r := Demo.started (Demo.config None 0 30 true)).
  destruct (frame r) as [c |] eqn:Ef; [| vm_compute in Ef; discriminate].
  destruct (@finish_frame_without_state Demo.backend r c [] Ef) as (r' & Hrun & _).
  exists r'.
  exists (if Config.watermark (cfg r) then add_op c (@watermark_op Demo.backend r) else c).
  exact Hrun.
Defined.

(** X8: with the watermark enabled, whatever a [finish_frame] that returns hands
    to the encoder ends with the watermark: it is drawn after the variable
    panels and the connector, so it lies over them. *)
Theorem finish_frame_watermark_on_top {B : Backend} (v : option VarState.t)
    (r r' : FrameRenderer) (c : Canvas) (wd wd' : World) :
  frame r = Some c ->
  Config.watermark (cfg r) = true ->
  finish_frame v r wd = (Ok tt, r', wd') ->
  exists cv,
    wd' = wd ++ [EvWrite cv] /\
    frame r' = Some cv /\
    last (cv_ops cv) (watermark_op r) = watermark_op r /\
    exists ops, cv_ops cv = cv_ops c ++ ops ++ [watermark_op r].
Proof.
  intros Hf Hw Hrun.
  assert (Htail : forall r1 c1,
            frame r1 = Some c1 -> caption_font r1 = caption_font r -> cfg r1 = cfg r ->
            (exists ops, cv_ops c1 = cv_ops c ++ ops) ->
            ((if Config.watermark (cfg r) then draw_watermark else ret tt) ;; encoder_write)%monad
              r1 wd = (Ok tt, r', wd') ->
            exists cv,
              wd' = wd ++ [EvWrite cv] /\
              frame r' = Some cv /\
              last (cv_ops cv) (watermark_op r) = watermark_op r /\
              exists ops, cv_ops cv = cv_ops c ++ ops ++ [watermark_op r]).
  { intros r1 c1 Hf1 Hfont Hcfg (ops & Hops) H.
    rewrite (finish_tail_run (Config.watermark (cfg r)) r1 c1 wd Hf1), Hw in H.
    assert (Hwm : watermark_op r1 = watermark_op r)
      by (unfold watermark_op; rewrite Hfont, Hcfg; reflexivity).
    rewrite Hwm in H. inversion H; subst.
    exists (add_op c1 (watermark_op r)).
    split; [reflexivity |]. split; [reflexivity |].
    cbn [add_op cv_ops]. split; [apply last_last |].
    exists ops. rewrite Hops, <- app_assoc. reflexivity. }
  destruct v as [state |].
  - rewrite (finish_frame_open state r c wd Hf) in Hrun.
    destruct (sizes r) as [z |] eqn:Hs.
    + rewrite (draw_variables_run state r c z wd Hf Hs) in Hrun. cbv zeta in Hrun.
      set (captured := snd (other_vars_trace (ovars_box z) state)) in *.
      destruct (VarState.ref state) as [n |].
      * destruct (dest_anchor r captured) as [dst |]; [| discriminate].
        cbv beta iota in Hrun.
        eapply Htail; [ .. | exact Hrun].
        -- reflexivity.
        -- unfold with_ref; destruct captured; reflexivity.
        -- unfold with_ref; destruct captured; reflexivity.
        -- unfold panels_canvas, painted. cbn [add_op cv_ops].
           eexists. rewrite <- !app_assoc. reflexivity.
      * cbv beta iota in Hrun.
        eapply Htail; [ .. | exact Hrun].
        -- reflexivity.
        -- unfold with_ref; destruct captured; reflexivity.
        -- unfold with_ref; destruct captured; reflexivity.
        -- unfold panels_canvas, painted. cbn [cv_ops].
           eexists. rewrite <- !app_assoc. reflexivity.
    + exfalso. revert Hrun.
      unfold draw_variables, draw_other_vars, other_vars_painter.
      run_m ltac:(rewrite ?Hs). discriminate.
  - rewrite (finish_frame_open_none r c wd Hf) in Hrun.
    refine (Htail r c Hf eq_refl eq_refl _ Hrun).
    exists []. rewrite app_nil_r. reflexivity.
Qed.

Lemma finish_frame_watermark_on_top_witness :
  exists r' cv ops,
    @finish_frame Demo.backend (Some Demo.ref_state)
      (Demo.started (Demo.config None 0 30 true)) [] = (Ok tt, r', [EvWrite cv]) /\
    cv_ops cv =
      ops ++ [@watermark_op Demo.backend (Demo.started (Demo.config None 0 30 true))].
Proof.
  pose (r := Demo.started (Demo.config None 0 30 true)).
  destruct (frame r) as [c |] eqn:Ef; [| vm_compute in Ef; discriminate].
  destruct (@finish_frame Demo.backend (Some Demo.ref_state) r [])
    as [[[[] | e] r'] wd'] eqn:Hrun; [| vm_compute in Hrun; discriminate].
  destruct (@finish_frame_watermark_on_top Demo.backend (Some Demo.ref_state) r r' c [] wd'
              Ef eq_refl Hrun) as (cv & Hwd & _ & _ & ops & Hops).
  subst wd'. exists r', cv, (cv_ops c ++ ops). split; [exact Hrun |].
  rewrite Hops, app_assoc. reflexivity.
Defined.

Lemma close_run {B : Backend} (v : option VarState.t) (r : FrameRenderer) (wd : World) :
  close v r wd =
  match finish_frame v r wd with
  | (Ok _, r', wd') => (Ok tt, r', wd' ++ [EvStop])
  | (Raise e, r', wd') => (Raise e, r', wd')
  end.
Proof.
  unfold close. unfold bind at 1.
  destruct (finish_frame v r wd) as [[[[] | e] r'] wd']; reflexivity.
Qed.

(** X9: [close] stops the encoder exactly when [finish_frame] returns, and as the
    last thing it does.  With no frame held it only stops the encoder; with
    a frame held it hands the frame over and then stops, or, when drawing
    the variables raises, does neither: the encoder is left running and the
    frame is never written.  Without a variable state it cannot raise. *)
Theorem close_stops_encoder_last {B : Backend} (v : option VarState.t) (r : FrameRenderer)
    (wd : World) :
  (frame r = None -> close v r wd = (Ok tt, r, wd ++ [EvStop])) /\
  (forall c, frame r = Some c ->
     (exists r' c',
        close v r wd = (Ok tt, r', wd ++ [EvWrite c'; EvStop]) /\ frame r' = Some c') \/
     (exists e r' state, v = Some state /\ close v r wd = (Raise e, r', wd))) /\
  (forall c, frame r = Some c ->
     exists r' c', close None r wd = (Ok tt, r', wd ++ [EvWrite c'; EvStop])).
Proof.
  assert (Hnone : forall c, frame r = Some c ->
            exists r' c',
              close None r wd = (Ok tt, r', wd ++ [EvWrite c'; EvStop]) /\ frame r' = Some c').
  { intros c Hf. rewrite close_run, (finish_frame_open_none r c wd Hf).
    destruct (finish_tail (Config.watermark (cfg r)) r c wd Hf) as (r' & c' & Hrun & Hf').
    rewrite Hrun. exists r', c'. rewrite <- app_assoc. split; [reflexivity | exact Hf']. }
  split; [| split].
  - intros Hf. rewrite close_run, (finish_frame_idle v r wd Hf). reflexivity.
  - intros c Hf. destruct v as [state |]; [| left; exact (Hnone c Hf)].
    rewrite close_run, (finish_frame_open state r c wd Hf).
    destruct (draw_variables_outcome state r c wd Hf)
      as [(r1 & c1 & Hrun & Hf1) | (e & r1 & Hrun)]; rewrite Hrun.
    + left.
      destruct (finish_tail (Config.watermark (cfg r)) r1 c1 wd Hf1) as (r' & c' & Ht & Hf').
      rewrite Ht. exists r', c'. rewrite <- app_assoc.
      split; [reflexivity | exact Hf'].
    + right. exists e, r1, state. split; reflexivity.
  - intros c Hf. destruct (Hnone c Hf) as (r' & c' & Hrun & _). exists r', c'. exact Hrun.
Qed.

Lemma close_stops_encoder_last_witness :
  @close Demo.backend None (Demo.fresh (Demo.config None 0 30 false)) [] =
    (Ok tt, Demo.fresh (Demo.config None 0 30 false), [EvStop]) /\
  exists r' c',
    @close Demo.backend None (Demo.started (Demo.config None 0 30 false)) [] =
      (Ok tt, r', [EvWrite c'; EvStop]).
Proof.
  split.
  - apply (proj1 (@close_stops_encoder_last Demo.backend None
                    (Demo.fresh (Demo.config None 0 30 false)) [])).
    reflexivity.
  - pose (r := Demo.started (Demo.config None 0 30 false)).
    destruct (frame r) as [c |] eqn:Ef; [| vm_compute in Ef; discriminate].
    exact (proj2 (proj2 (@close_stops_encoder_last Demo.backend None r [])) c Ef).
Defined.

(** ** More of the constructor *)

(** Before the layout is known nothing can be placed: [draw_code] and
    [draw_output] raise [TypeError] and leave the renderer and the encoder
    as they were. *)
Lemma draw_before_sizes {B : Backend} (r : FrameRenderer) :
  sizes r = None ->
  (forall lines cur_line wd, draw_code lines cur_line r wd = (Raise TypeError, r, wd)) /\
  (forall lines wd, draw_output lines r wd = (Raise TypeError, r, wd)).
Proof.
  intros Hs. split.
  - intros lines cur_line wd. unfold draw_code. run_m ltac:(rewrite ?Hs). reflexivity.
  - intros lines wd. unfold draw_output. run_m ltac:(rewrite ?Hs). reflexivity.
Qed.

(** X10: the constructor never computes the layout, with or without an intro:
    the renderer it returns has no sizes and no anchors, so [draw_code] and
    [draw_output] raise [TypeError] on it, changing nothing, until a
    [start_frame] has run. *)
Theorem init_leaves_layout_unset {B : Backend} (path : string) (c : Config.t)
    (r : FrameRenderer) (wd wd' : World) :
  init path c wd = (Ok r, wd') ->
  sizes r = None /\ sizes_populated r = false /\
  last_var r = None /\ ref_var r = None /\
  (forall lines cur_line wd2, draw_code lines cur_line r wd2 = (Raise TypeError, r, wd2)) /\
  (forall lines wd2, draw_output lines r wd2 = (Raise TypeError, r, wd2)).
Proof.
  intros Hinit.
  assert (Hs : sizes r = None /\ sizes_populated r = false /\
               last_var r = None /\ ref_var r = None).
  { destruct (select_encoder path c) as [enc | e] eqn:Hsel.
    - rewrite (init_supported path c enc wd Hsel) in Hinit.
      destruct (Config.intro_text c) as [t |].
      + destruct (intro_wanted c); inversion Hinit; subst; repeat split.
      + inversion Hinit; subst; repeat split.
    - unfold init in Hinit. rewrite Hsel in Hinit. discriminate. }
  destruct Hs as (Hs & Hp & Hl & Hr).
  repeat (split; [assumption |]).
  exact (draw_before_sizes r Hs).
Qed.

Lemma init_leaves_layout_unset_witness :
  exists r wd',
    @init Demo.backend "out.mp4" (Demo.config (Some "Hi"%string) 1 2 true) [] = (Ok r, wd') /\
    frame r <> None /\
    @draw_code Demo.backend Demo.code_lines 1 r wd' = (Raise TypeError, r, wd').
Proof.
  destruct (@init Demo.backend "out.mp4" (Demo.config (Some "Hi"%string) 1 2 true) [])
    as [[r | e] wd'] eqn:Hinit; [| vm_compute in Hinit; discriminate].
  destruct (@init_leaves_layout_unset Demo.backend "out.mp4"
              (Demo.config (Some "Hi"%string) 1 2 true) r [] wd' Hinit)
    as (_ & _ & _ & _ & Hcode & _).
  exists r, wd'. split; [reflexivity |]. split; [| apply Hcode].
  vm_compute in Hinit. injection Hinit as <- _. discriminate.
Defined.

(** X11: the extensions [gif] and [webp], in any letter case, select the GIF and
    the WebP encoder; each is constructed with the path as given and the
    configured frame rate only, the frame size is not passed on.  The
    constructor returns a renderer holding that encoder, and between
    constructing it and returning it only writes frames. *)
Theorem init_gif_webp_encoders {B : Backend} (path : string) (c : Config.t) (wd : World) :
  (extension path = "gif"%string ->
   exists r wd',
     init path c wd = (Ok r, wd ++ EvOpen (GIFEncoder path (Config.fps c)) :: wd') /\
     encoder r = GIFEncoder path (Config.fps c) /\
     forall e, In e wd' -> exists cv, e = EvWrite cv) /\
  (extension path = "webp"%string ->
   exists r wd',
     init path c wd = (Ok r, wd ++ EvOpen (WebPEncoder path (Config.fps c)) :: wd') /\
     encoder r = WebPEncoder path (Config.fps c) /\
     forall e, In e wd' -> exists cv, e = EvWrite cv).
Proof.
  assert (Hgen : forall enc, select_encoder path c = Ok enc ->
            exists r wd',
              init path c wd = (Ok r, wd ++ EvOpen enc :: wd') /\
              encoder r = enc /\
              forall e, In e wd' -> exists cv, e = EvWrite cv).
  { intros enc Hsel. rewrite (init_supported path c enc wd Hsel).
    destruct (Config.intro_text c) as [t |].
    - destruct (intro_wanted c).
      + eexists. eexists. split; [rewrite <- app_assoc; reflexivity |].
        split; [reflexivity |].
        intros e He. apply repeat_spec in He. eauto.
      + exists (initial c enc), []. repeat split. intros e [].
    - exists (initial c enc), []. repeat split. intros e []. }
  split; intros Hext; apply Hgen; unfold select_encoder; rewrite Hext; reflexivity.
Qed.

Lemma init_gif_webp_encoders_witness :
  (exists r,
     @init Demo.backend "clips/run.GIF" (Demo.config None 0 30 false) [] =
       (Ok r, [EvOpen (GIFEncoder "clips/run.GIF" 30)])) /\
  (exists r,
     @init Demo.backend "run.tar.webp" (Demo.config None 0 30 false) [] =
       (Ok r, [EvOpen (WebPEncoder "run.tar.webp" 30)])).
Proof.
  split.
  - destruct (proj1 (@init_gif_webp_encoders Demo.backend "clips/run.GIF"
                       (Demo.config None 0 30 false) []) eq_refl)
      as (r & wd' & Hrun & _ & _).
    exists r. rewrite Hrun. vm_compute in Hrun. injection Hrun as _ <-. reflexivity.
  - destruct (proj2 (@init_gif_webp_encoders Demo.backend "run.tar.webp"
                       (Demo.config None 0 30 false) []) eq_refl)
      as (r & wd' & Hrun & _ & _).
    exists r. rewrite Hrun. vm_compute in Hrun. injection Hrun as _ <-. reflexivity.
Defined.

(** ** Colours and styles of the theme *)

Lemma hex_digit_range (c : ascii) (d : Z) : hex_digit c = Some d -> 0 <= d <= 15.
Proof.
  unfold hex_digit. set (n := Z.of_nat (nat_of_ascii c)). clearbody n.
  destruct ((48 <=? n) && (n <=? 57)) eqn:E1.
  { intros H; inversion H; subst. lia. }
  destruct ((97 <=? n) && (n <=? 102)) eqn:E2.
  { intros H; inversion H; subst. lia. }
  destruct ((65 <=? n) && (n <=? 70)) eqn:E3.
  { intros H; inversion H; subst. lia. }
  discriminate.
Qed.

Lemma int16_raises_value_error (s : string) (e : exn) :
  int16 s = Raise e -> exists m, e = ValueError m.
Proof.
  unfold int16. destruct (int16_sign (lstrip s)) as [neg s1].
  destruct (int16_digits 0 None (int16_prefix s1)) as [[v rest] |].
  - destruct (all_space rest); [discriminate |]. intros E. inversion E. eauto.
  - intros E. inversion E. eauto.
Qed.

(** A hexadecimal digit is no white space, sign, underscore or [x]. *)
Lemma hex_digit_plain (c : ascii) (d : Z) :
  hex_digit c = Some d ->
  is_space c = false /\ Ascii.eqb c "+" = false /\ Ascii.eqb c "-" = false /\
  Ascii.eqb c "_" = false /\ Ascii.eqb c "x" = false /\ Ascii.eqb c "X" = false.
Proof.
  destruct c as [b0 b1 b2 b3 b4 b5 b6 b7].
  destruct b0, b1, b2, b3, b4, b5, b6, b7; vm_compute; intros H;
    try discriminate; repeat split.
Qed.

(** One or two hexadecimal digits are read as their value. *)
Lemma int16_hex1 (c : ascii) (d : Z) :
  hex_digit c = Some d -> int16 (String c EmptyString) = Ok d.
Proof.
  intros H. destruct (hex_digit_plain c d H) as (Hs & Hp & Hm & _).
  unfold int16. cbn [lstrip]. rewrite Hs. cbn [int16_sign]. rewrite Hp, Hm.
  cbn [int16_prefix int16_digits]. rewrite H. cbn [all_space].
  f_equal; lia.
Qed.

Lemma int16_hex2 (c0 c1 : ascii) (d0 d1 : Z) :
  hex_digit c0 = Some d0 -> hex_digit c1 = Some d1 ->
  int16 (String c0 (String c1 EmptyString)) = Ok (16 * d0 + d1).
Proof.
  intros H0 H1. destruct (hex_digit_plain c0 d0 H0) as (Hs & Hp & Hm & _).
  destruct (hex_digit_plain c1 d1 H1) as (_ & _ & _ & _ & Hx & HX).
  unfold int16. cbn [lstrip]. rewrite Hs. cbn [int16_sign]. rewrite Hp, Hm.
  cbn [int16_prefix]. rewrite Hx, HX, andb_false_r.
  cbn [int16_digits]. rewrite H0, H1. cbn [all_space].
  f_equal; lia.
Qed.

Lemma substring_0_0 (s : string) : substring 0 0 s = EmptyString.
Proof. destruct s; reflexivity. Qed.

(** X12: on a string of hexadecimal digits, five of them or more,
    [parse_hex_color] returns an opaque colour with every channel in
    [0..255].  Only the first six characters are read: a five-digit string
    is accepted, its last digit alone making the blue channel, and whatever
    follows the sixth character changes nothing. *)
Theorem parse_hex_color_channels (s : string) :
  all_hex s = true ->
  (5 <= String.length s)%nat ->
  (exists r g b,
     parse_hex_color s = Ok (RGBA r g b 255) /\
     0 <= r <= 255 /\ 0 <= g <= 255 /\ 0 <= b <= 255) /\
  parse_hex_color (substring 0 6 s) = parse_hex_color s /\
  ((6 <= String.length s)%nat -> forall t, parse_hex_color (s ++ t) = parse_hex_color s).
Proof.
  intros Hh Hl.
  destruct s as [| c0 [| c1 [| c2 [| c3 [| c4 s]]]]]; cbn [String.length] in Hl; try lia.
  cbn [all_hex] in Hh.
  destruct (hex_digit c0) as [d0 |] eqn:E0; [| discriminate].
  destruct (hex_digit c1) as [d1 |] eqn:E1; [| discriminate].
  destruct (hex_digit c2) as [d2 |] eqn:E2; [| discriminate].
  destruct (hex_digit c3) as [d3 |] eqn:E3; [| discriminate].
  destruct (hex_digit c4) as [d4 |] eqn:E4; [| discriminate].
  pose proof (hex_digit_range _ _ E0). pose proof (hex_digit_range _ _ E1).
  pose proof (hex_digit_range _ _ E2). pose proof (hex_digit_range _ _ E3).
  pose proof (hex_digit_range _ _ E4).
  split; [| split].
  - unfold parse_hex_color. cbn [substring].
    rewrite (int16_hex2 c0 c1 d0 d1 E0 E1), (int16_hex2 c2 c3 d2 d3 E2 E3).
    destruct s as [| c5 s].
    + cbn [substring]. rewrite (int16_hex1 c4 d4 E4).
      do 3 eexists. split; [reflexivity |]. lia.
    + cbn [all_hex] in Hh. destruct (hex_digit c5) as [d5 |] eqn:E5; [| discriminate].
      pose proof (hex_digit_range _ _ E5).
      cbn [substring]. rewrite substring_0_0, (int16_hex2 c4 c5 d4 d5 E4 E5).
      do 3 eexists. split; [reflexivity |]. lia.
  - unfold parse_hex_color. destruct s as [| c5 s]; [reflexivity |].
    cbn [substring]. rewrite !substring_0_0. reflexivity.
  - intros H6 t. destruct s as [| c5 s]; [cbn [String.length] in H6; lia |].
    unfold parse_hex_color. cbn [append substring]. rewrite !substring_0_0. reflexivity.
Qed.

Lemma parse_hex_color_channels_witness :
  parse_hex_color "f92672" = Ok (RGBA 249 38 114 255) /\
  parse_hex_color "f92672ff" = parse_hex_color "f92672" /\
  exists r g b, parse_hex_color "abcde" = Ok (RGBA r g b 255) /\ b = 14.
Proof.
  destruct (parse_hex_color_channels "f92672" eq_refl ltac:(cbn; lia))
    as ((r & g & b & Hp & _) & _ & Hmore).
  split; [rewrite Hp; vm_compute in Hp; symmetry; exact Hp |].
  split; [exact (Hmore ltac:(cbn; lia) "ff"%string) |].
  exists 171, 205, 14. split; reflexivity.
Defined.

(** X13: a string of fewer than five characters, whatever they are, has no blue
    channel to read: [parse_hex_color] raises [ValueError]. *)
Theorem parse_hex_color_short (s : string) :
  (String.length s <= 4)%nat ->
  exists m, parse_hex_color s = Raise (ValueError m).
Proof.
  intros Hl.
  assert (H3 : substring 4 2 s = EmptyString).
  { destruct s as [| c0 [| c1 [| c2 [| c3 [| c4 s]]]]]; cbn [String.length] in Hl;
      try reflexivity; lia. }
  unfold parse_hex_color. rewrite H3.
  destruct (int16 (substring 0 2 s)) as [r | e] eqn:Er.
  - destruct (int16 (substring 2 2 s)) as [g | e] eqn:Eg.
    + eexists. reflexivity.
    + destruct (int16_raises_value_error _ _ Eg) as (m & ->). eauto.
  - destruct (int16_raises_value_error _ _ Er) as (m & ->). eauto.
Qed.

Lemma parse_hex_color_short_witness :
  exists m, parse_hex_color "fff" = Raise (ValueError m).
Proof.
  exact (parse_hex_color_short "fff" ltac:(cbn; lia)).
Defined.

(** [load_style] over a theme, from any dictionary built so far. *)
Lemma load_style_from_lookup (style : list (Token * StyleParams)) :
  forall (acc styles : list (Token * Style)),
    load_style_from acc style = Ok styles ->
    forall t,
      match theme_entry style t with
      | Some p =>
          exists st,
            lookup_style styles t = Some st /\
            st_bold st = sp_bold p || sp_italic p || sp_underline p /\
            (no_color p = true -> st_color st = None) /\
            (forall c, sp_color p = Some c -> c <> EmptyString ->
               exists col, parse_hex_color c = Ok col /\ st_color st = Some col)
      | None => lookup_style styles t = lookup_style acc t
      end.
Proof.
  induction style as [| [k p] rest IH]; intros acc styles Hl t.
  - cbn in Hl. inversion Hl; subst. reflexivity.
  - cbn [load_style_from] in Hl. cbn [theme_entry].
    assert (Hstep : exists st,
              load_style_from ((k, st) :: acc) rest = Ok styles /\
              st_bold st = sp_bold p || sp_italic p || sp_underline p /\
              (no_color p = true -> st_color st = None) /\
              (forall c, sp_color p = Some c -> c <> EmptyString ->
                 exists col, parse_hex_color c = Ok col /\ st_color st = Some col)).
    { unfold no_color. destruct (sp_color p) as [c |].
      - destruct c as [| a c'].
        + cbn [Py.truthy_str] in Hl. eexists. split; [exact Hl |].
          split; [reflexivity |]. split; [reflexivity |].
          intros c Hc Hne. inversion Hc; subst. congruence.
        + cbn [Py.truthy_str] in Hl.
          destruct (parse_hex_color (String a c')) as [col | e] eqn:Ep; [| discriminate].
          eexists. split; [exact Hl |]. split; [reflexivity |].
          split; [cbn; discriminate |].
          intros c Hc _. inversion Hc; subst. exists col. split; [exact Ep | reflexivity].
      - eexists. split; [exact Hl |]. split; [reflexivity |]. split; [reflexivity |].
        intros c Hc. discriminate. }
    destruct Hstep as (st & Hrest & Hb & Hn & Hc).
    specialize (IH _ _ Hrest t).
    destruct (theme_entry rest t) as [q |]; [exact IH |].
    cbn [lookup_style] in IH. destruct (String.eqb k t); [| exact IH].
    exists st. repeat split; assumption.
Qed.

(** X14: the dictionary [load_style] returns has an entry exactly for the tokens
    of the theme, made from the last theme entry of the token: bold is set
    when the theme asks for bold, italic or underline; the colour is [None]
    when the theme gives none or an empty one, and the parsed colour
    otherwise. *)
Theorem load_style_entries (style : list (Token * StyleParams))
    (styles : list (Token * Style)) (t : Token) :
  load_style style = Ok styles ->
  match theme_entry style t with
  | Some p =>
      exists st,
        lookup_style styles t = Some st /\
        st_bold st = sp_bold p || sp_italic p || sp_underline p /\
        (no_color p = true -> st_color st = None) /\
        (forall c, sp_color p = Some c -> c <> EmptyString ->
           exists col, parse_hex_color c = Ok col /\ st_color st = Some col)
  | None => lookup_style styles t = None
  end.
Proof.
  intros Hl. exact (load_style_from_lookup style [] styles Hl t).
Qed.

Lemma load_style_entries_witness :
  exists styles,
    load_style (@monokai Demo.backend) = Ok styles /\
    lookup_style styles "Token.Keyword"%string =
      Some {| st_color := Some (RGBA 102 217 239 255); st_bold := true |} /\
    lookup_style styles "Token.Name"%string = None.
Proof.
  destruct (load_style (@monokai Demo.backend)) as [styles | e] eqn:Hl;
    [| vm_compute in Hl; discriminate].
  exists styles. split; [reflexivity |]. split.
  - destruct (load_style_entries _ styles "Token.Keyword"%string Hl) as (st & Hk & _).
    rewrite Hk. vm_compute in Hl. injection Hl as <-. vm_compute in Hk. symmetry. exact Hk.
  - exact (load_style_entries _ styles "Token.Name"%string Hl).
Defined.

Lemma parse_hex_color_raises_value_error (s : string) (e : exn) :
  parse_hex_color s = Raise e -> exists m, e = ValueError m.
Proof.
  unfold parse_hex_color.
  destruct (int16 (substring 0 2 s)) as [r | e1] eqn:E1.
  - destruct (int16 (substring 2 2 s)) as [g | e2] eqn:E2.
    + destruct (int16 (substring 4 2 s)) as [b | e3] eqn:E3; [discriminate |].
      intros H. inversion H; subst. exact (int16_raises_value_error _ _ E3).
    + intros H. inversion H; subst. exact (int16_raises_value_error _ _ E2).
  - intros H. inversion H; subst. exact (int16_raises_value_error _ _ E1).
Qed.

Lemma load_style_from_raises (style : list (Token * StyleParams)) :
  forall (acc : list (Token * Style)) t p c e,
    In (t, p) style -> sp_color p = Some c -> c <> EmptyString ->
    parse_hex_color c = Raise e ->
    exists m, load_style_from acc style = Raise (ValueError m).
Proof.
  induction style as [| [k q] rest IH]; intros acc t p c e Hin Hc Hne Hp; [destruct Hin |].
  cbn [load_style_from].
  destruct Hin as [Heq | Hin].
  - inversion Heq; subst. rewrite Hc.
    destruct c as [| a c']; [congruence |]. cbn [Py.truthy_str]. rewrite Hp.
    destruct (parse_hex_color_raises_value_error _ _ Hp) as (m & ->). eauto.
  - destruct (sp_color q) as [cq |].
    + destruct (Py.truthy_str cq).
      * destruct (parse_hex_color cq) as [col | e'] eqn:Eq.
        -- exact (IH _ t p c e Hin Hc Hne Hp).
        -- destruct (parse_hex_color_raises_value_error _ _ Eq) as (m & ->). eauto.
      * exact (IH _ t p c e Hin Hc Hne Hp).
    + exact (IH _ t p c e Hin Hc Hne Hp).
Qed.

(** X15: one colour of the theme that does not parse as [int(s, 16)] reads
    it, a leading [#] for example, makes [load_style] raise [ValueError]
    for the whole theme, and with it every [draw_code], whatever the lines
    and whether or not the token is displayed: nothing is drawn.  The
    colour is an ASCII string, where [int] is the parser modelled here: a
    sign or blanks around the digits are accepted, as [int] accepts them. *)
Theorem draw_code_bad_theme {B : Backend} (t : Token) (p : StyleParams) (c : string)
    (e : exn) (lines : list (list (Token * string))) (cur_line : Z)
    (r : FrameRenderer) (cv : Canvas) (z : Sizes) (wd : World) :
  In (t, p) monokai -> sp_color p = Some c -> c <> EmptyString ->
  Str.is_ascii c = true ->
  parse_hex_color c = Raise e ->
  frame r = Some cv -> sizes r = Some z ->
  exists m,
    load_style monokai = Raise (ValueError m) /\
    draw_code lines cur_line r wd = (Raise (ValueError m), r, wd).
Proof.
  intros Hin Hc Hne _ Hp Hf Hs.
  destruct (load_style_from_raises monokai [] t p c e Hin Hc Hne Hp) as (m & Hl).
  exists m. split; [exact Hl |].
  unfold draw_code. unfold bind at 1, get. unfold bind at 1. rewrite Hs.
  unfold need, ret at 1. cbv beta iota zeta. unfold bind at 1.
  unfold load_style. rewrite Hl. reflexivity.
Qed.

Lemma draw_code_bad_theme_witness :
  (exists m,
     @draw_code Demo.hash_backend Demo.code_lines 3
       (Demo.started (Demo.config None 0 30 false)) [] =
     (Raise (ValueError m), Demo.started (Demo.config None 0 30 false), [])) /\
  parse_hex_color "+fa0b1" = Ok (RGBA 15 160 177 255) /\
  parse_hex_color " 1 2 3" = Ok (RGBA 1 2 3 255).
Proof.
  pose (r := Demo.started (Demo.config None 0 30 false)).
  destruct (frame r) as [cv |] eqn:Ef; [| vm_compute in Ef; discriminate].
  destruct (sizes r) as [z |] eqn:Es; [| vm_compute in Es; discriminate].
  destruct (@draw_code_bad_theme Demo.hash_backend "Token.Keyword"%string
              {| sp_color := Some "#66d9ef"%string; sp_bold := false;
                 sp_italic := true; sp_underline := false |}
              "#66d9ef"%string (ValueError "invalid literal for int() with base 16")
              Demo.code_lines 3 r cv z []
              (or_intror (or_introl eq_refl)) eq_refl ltac:(discriminate) eq_refl eq_refl
              Ef Es)
    as (m & _ & Hrun).
  split; [exists m; exact Hrun |]. split; reflexivity.
Defined.

(** ** More of the variable panels *)

Section PanelsMore.

Context {B : Backend}.

Lemma irepr_values_write (cs : list PainterCall) (t : string) (c : option Color) (bold : bool)
    (g : option Color) :
  irepr_values (cs ++ [PWrite t c bold g]) = irepr_values cs.
Proof. unfold irepr_values. rewrite flat_map_app. cbn. apply app_nil_r. Qed.

Lemma irepr_values_irepr (cs : list PainterCall) (v : Value) (h : option Highlight) :
  irepr_values (cs ++ [PIrepr v h]) = irepr_values cs ++ [v].
Proof. unfold irepr_values. rewrite flat_map_app. reflexivity. Qed.

Lemma highlighted_values_write (cs : list PainterCall) (t : string) (c : option Color)
    (bold : bool) (g : option Color) :
  highlighted_values (cs ++ [PWrite t c bold g]) = highlighted_values cs.
Proof. unfold highlighted_values. rewrite flat_map_app. cbn. apply app_nil_r. Qed.

Lemma highlighted_values_plain (cs : list PainterCall) (v : Value) :
  highlighted_values (cs ++ [PIrepr v None]) = highlighted_values cs.
Proof. unfold highlighted_values. rewrite flat_map_app. cbn. apply app_nil_r. Qed.

Lemma highlighted_values_marked (cs : list PainterCall) (v : Value) (h : Highlight) :
  highlighted_values (cs ++ [PIrepr v (Some h)]) = highlighted_values cs ++ [v].
Proof. unfold highlighted_values. rewrite flat_map_app. reflexivity. Qed.

(** The loop over the values of one variable: every value goes to [irepr],
    the last one highlighted when the variable is the referenced one. *)
Lemma value_fold_values (b : TextPainter) (state : VarState.t) (var : Var)
    (vs : list Value) :
  forall i cs anchor,
    let res := fold_left (value_step b state var (i + Z.of_nat (List.length vs)))
                 (Py.enumerate_from i vs) (cs, anchor) in
    irepr_values (fst res) = irepr_values cs ++ vs /\
    highlighted_values (fst res) =
      highlighted_values cs ++ (if is_ref state var then latest vs else []).
Proof.
  induction vs as [| v vs IH]; intros i cs anchor.
  - cbn zeta. cbn [Py.enumerate_from fold_left fst].
    change (latest []) with (@nil Value).
    destruct (is_ref state var); rewrite !app_nil_r; split; reflexivity.
  - cbn zeta. cbn [Py.enumerate_from fold_left].
    replace (i + Z.of_nat (List.length (v :: vs)))
      with ((i + 1) + Z.of_nat (List.length vs)) by (cbn [List.length]; lia).
    destruct vs as [| v' vs'].
    + cbn [List.length Py.enumerate_from fold_left]. unfold value_step.
      replace (i =? i + 1 + Z.of_nat 0 - 1) with true by (symmetry; apply Z.eqb_eq; lia).
      change (latest [v]) with [v].
      destruct (is_ref state var); cbn [andb fst].
      * rewrite irepr_values_irepr, irepr_values_write.
        rewrite highlighted_values_marked, highlighted_values_write. split; reflexivity.
      * rewrite irepr_values_irepr, irepr_values_write.
        rewrite highlighted_values_plain, highlighted_values_write, app_nil_r.
        split; reflexivity.
    + unfold value_step at 2 4.
      replace (i =? i + 1 + Z.of_nat (List.length (v' :: vs')) - 1) with false
        by (symmetry; apply Z.eqb_neq; cbn [List.length]; lia).
      rewrite andb_false_r.
      destruct (IH (i + 1) ((cs ++ [PWrite bullet_text None false None]) ++ [PIrepr v None])
                  anchor) as [H1 H2].
      cbv zeta in H1, H2. rewrite H1, H2.
      rewrite irepr_values_irepr, irepr_values_write.
      rewrite highlighted_values_plain, highlighted_values_write, <- app_assoc.
      split; [reflexivity |].
      unfold latest. cbn [List.length].
      replace (S (List.length vs') - 1)%nat with (List.length vs') by lia.
      replace (S (S (List.length vs')) - 1)%nat with (S (List.length vs')) by lia.
      reflexivity.
Qed.

(** The loop over the tracked variables. *)
Lemma var_fold_values (b : TextPainter) (state : VarState.t)
    (hist : list (Var * VarValues)) :
  forall i cs anchor,
    let res := fold_left (var_step b state) (Py.enumerate_from i hist) (cs, anchor) in
    irepr_values (fst res) = irepr_values cs ++ shown_values hist /\
    highlighted_values (fst res) = highlighted_values cs ++ referred_values state hist.
Proof.
  induction hist as [| [var vals] hist IH]; intros i cs anchor.
  - cbn zeta. cbn [Py.enumerate_from fold_left fst].
    change (shown_values []) with (@nil Value).
    change (referred_values state []) with (@nil Value).
    rewrite !app_nil_r. split; reflexivity.
  - cbn zeta. cbn [Py.enumerate_from fold_left].
    unfold shown_values, referred_values. cbn [flat_map fst snd].
    fold (shown_values hist). fold (referred_values state hist).
    unfold var_step at 2 4.
    destruct (ignored vals).
    + exact (IH (i + 1) cs anchor).
    + set (cs2 := (if 0 <? i then cs ++ [PWrite (Str.nl ++ Str.nl) None false None] else cs)
                    ++ [PWrite (var_name var ++ ":") None false None]).
      assert (Hi : irepr_values cs2 = irepr_values cs).
      { unfold cs2. destruct (0 <? i); rewrite ?irepr_values_write; reflexivity. }
      assert (Hh : highlighted_values cs2 = highlighted_values cs).
      { unfold cs2. destruct (0 <? i); rewrite ?highlighted_values_write; reflexivity. }
      pose proof (value_fold_values b state var (values vals) 0 cs2 anchor) as Hv.
      cbv zeta in Hv. cbn [Z.add] in Hv. fold (Py.enumerate (values vals)) in Hv.
      destruct (fold_left (value_step b state var (Z.of_nat (List.length (values vals))))
                  (Py.enumerate (values vals)) (cs2, anchor)) as [cs3 anchor3].
      cbn [fst] in Hv. destruct Hv as [Hv1 Hv2].
      destruct (IH (i + 1) cs3 anchor3) as [H1 H2]. cbv zeta in H1, H2.
      rewrite H1, H2, Hv1, Hv2, Hi, Hh, <- !app_assoc. split; reflexivity.
Qed.

(** Without a match for the reference, no anchor is captured. *)
Lemma value_fold_no_ref (b : TextPainter) (state : VarState.t) (var : Var) (len : Z)
    (ivs : list (Z * Value)) :
  is_ref state var = false ->
  forall cs anchor,
    snd (fold_left (value_step b state var len) ivs (cs, anchor)) = anchor.
Proof.
  intros Hr. induction ivs as [| [i v] ivs IH]; intros cs anchor; [reflexivity |].
  cbn [fold_left]. unfold value_step at 2. rewrite Hr. cbn [andb]. apply IH.
Qed.

Lemma var_fold_no_capture (b : TextPainter) (state : VarState.t)
    (hist : list (Var * VarValues)) :
  (forall var vals, In (var, vals) hist -> is_ref state var = true ->
                    ignored vals = true \/ values vals = []) ->
  forall i cs anchor,
    snd (fold_left (var_step b state) (Py.enumerate_from i hist) (cs, anchor)) = anchor.
Proof.
  induction hist as [| [var vals] hist IH]; intros Hall i cs anchor; [reflexivity |].
  cbn [Py.enumerate_from fold_left].
  assert (Hstep : snd (var_step b state (cs, anchor) (i, (var, vals))) = anchor).
  { unfold var_step. destruct (ignored vals) eqn:Ei; [reflexivity |].
    destruct (is_ref state var) eqn:Er.
    - destruct (Hall var vals (or_introl eq_refl) Er) as [H | H]; [congruence |].
      rewrite H. reflexivity.
    - apply value_fold_no_ref. exact Er. }
  destruct (var_step b state (cs, anchor) (i, (var, vals))) as [cs' anchor'].
  cbn [snd] in Hstep. subst anchor'.
  apply IH. intros var' vals' Hin. apply Hall. right. exact Hin.
Qed.

End PanelsMore.

(** X16: [draw_other_vars] shows the whole history: on an open frame with the
    sizes known it returns, and the values it hands to the value formatter
    are, in order, all recorded values of all variables that are not
    ignored; nothing is cut off here.  The ones handed over with
    highlighting are exactly the latest values of the variables named by
    the reference, so none when the state has no reference, and then no
    anchor is captured either. *)
Theorem draw_other_vars_shows_history {B : Backend} (state : VarState.t)
    (r : FrameRenderer) (c : Canvas) (z : Sizes) (wd : World) :
  frame r = Some c -> sizes r = Some z ->
  exists cs anchor,
    draw_other_vars state r wd = (Ok tt, after_calls r c (ovars_box z) cs anchor, wd) /\
    irepr_values cs = shown_values (VarState.other_history state) /\
    highlighted_values cs = referred_values state (VarState.other_history state) /\
    (VarState.ref state = None -> highlighted_values cs = [] /\ anchor = None).
Proof.
  intros Hf Hs.
  exists (fst (other_vars_trace (ovars_box z) state)),
         (snd (other_vars_trace (ovars_box z) state)).
  split; [exact (draw_other_vars_run state r c z wd Hf Hs) |].
  destruct (var_fold_values (ovars_box z) state (VarState.other_history state) 0 [] None)
    as [H1 H2].
  cbv zeta in H1, H2. split; [exact H1 |]. split; [exact H2 |].
  intros Hn.
  assert (Hnr : forall var, is_ref state var = false)
    by (intros var; unfold is_ref; rewrite Hn; reflexivity).
  assert (Hnil : forall hist, referred_values state hist = []).
  { induction hist as [| [var vals] hist IH]; [reflexivity |].
    unfold referred_values in *. cbn [flat_map fst snd].
    rewrite Hnr, IH. destruct (ignored vals); reflexivity. }
  split.
  - unfold other_vars_trace, Py.enumerate. rewrite H2, Hnil. reflexivity.
  - apply var_fold_no_capture. intros var vals _ Hr. rewrite Hnr in Hr. discriminate.
Qed.

Lemma draw_other_vars_shows_history_witness :
  exists cs anchor,
    irepr_values cs = [VInt 1; VInt 2] /\ highlighted_values cs = [VInt 2] /\
    exists c z,
      frame (Demo.started (Demo.config None 0 30 false)) = Some c /\
      @draw_other_vars Demo.backend Demo.ref_state
        (Demo.started (Demo.config None 0 30 false)) [] =
      (Ok tt,
       @after_calls (Demo.started (Demo.config None 0 30 false)) c (ovars_box z) cs anchor, []).
Proof.
  pose (r := Demo.started (Demo.config None 0 30 false)).
  destruct (frame r) as [c |] eqn:Ef; [| vm_compute in Ef; discriminate].
  destruct (sizes r) as [z |] eqn:Es; [| vm_compute in Es; discriminate].
  destruct (@draw_other_vars_shows_history Demo.backend Demo.ref_state r c z [] Ef Es)
    as (cs & anchor & Hrun & Hv & Hh & _).
  exists cs, anchor. split; [exact Hv |]. split; [exact Hh |].
  exists c, z. split; [exact Ef | exact Hrun].
Defined.

(** X17: a reference that no drawn variable answers: every variable of that name
    is ignored or has no recorded value.  This pass then captures no
    destination anchor.  If the renderer holds none from an earlier frame
    either, [draw_variables] raises [TypeError] after both panels were
    drawn, and [finish_frame] and [close] raise with it: the frame is not
    written and the encoder is not stopped.  If it does hold one, the
    connector is drawn to that earlier position. *)
Theorem draw_variables_missing_reference {B : Backend} (state : VarState.t)
    (r : FrameRenderer) (c : Canvas) (z : Sizes) (wd : World) (n : string) :
  frame r = Some c -> sizes r = Some z ->
  VarState.ref state = Some n ->
  (forall var vals, In (var, vals) (VarState.other_history state) -> var_name var = n ->
                    ignored vals = true \/ values vals = []) ->
  snd (other_vars_trace (ovars_box z) state) = None /\
  (ref_var r = None ->
   exists r',
     draw_variables state r wd = (Raise TypeError, r', wd) /\
     frame r' = Some (panels_canvas c z state) /\
     finish_frame (Some state) r wd = (Raise TypeError, r', wd) /\
     close (Some state) r wd = (Raise TypeError, r', wd)) /\
  (forall dst, ref_var r = Some dst ->
   exists r',
     draw_variables state r wd = (Ok tt, r', wd) /\
     frame r' = Some (add_op (panels_canvas c z state)
                        (connector r state (source_anchor z state) dst)) /\
     ref_var r' = Some dst).
Proof.
  intros Hf Hs Hn Hall.
  assert (Hcap : snd (other_vars_trace (ovars_box z) state) = None).
  { unfold other_vars_trace, Py.enumerate. apply var_fold_no_capture.
    intros var vals Hin Hr. apply (Hall var vals Hin).
    unfold is_ref in Hr. rewrite Hn in Hr. now apply String.eqb_eq. }
  pose proof (draw_variables_run state r c z wd Hf Hs) as Hrun.
  cbv zeta in Hrun. rewrite Hn, Hcap in Hrun. cbn [dest_anchor with_ref] in Hrun.
  split; [exact Hcap |]. split.
  - intros Hr. rewrite Hr in Hrun.
    eexists. split; [exact Hrun |]. split; [reflexivity |].
    assert (Hfin : finish_frame (Some state) r wd =
                   (Raise TypeError,
                    set_last_var (source_anchor z state)
                      (set_frame (Some (panels_canvas c z state)) r), wd))
      by (rewrite (finish_frame_open state r c wd Hf), Hrun; reflexivity).
    split; [exact Hfin |]. rewrite close_run, Hfin. reflexivity.
  - intros dst Hr. rewrite Hr in Hrun.
    eexists. split; [exact Hrun |]. split; [reflexivity | exact Hr].
Qed.

Lemma draw_variables_missing_reference_witness :
  exists r',
    @close Demo.backend (Some Demo.ignored_ref_state)
      (Demo.started (Demo.config None 0 30 false)) [] = (Raise TypeError, r', []).
Proof.
  pose (r := Demo.started (Demo.config None 0 30 false)).
  destruct (frame r) as [c |] eqn:Ef; [| vm_compute in Ef; discriminate].
  destruct (sizes r) as [z |] eqn:Es; [| vm_compute in Es; discriminate].
  assert (Hall : forall var vals,
            In (var, vals) (VarState.other_history Demo.ignored_ref_state) ->
            var_name var = "y"%string -> ignored vals = true \/ values vals = []).
  { intros var vals [Heq | []] _. inversion Heq; subst. left. reflexivity. }
  destruct (@draw_variables_missing_reference Demo.backend Demo.ignored_ref_state r c z []
              "y"%string Ef Es eq_refl Hall) as (_ & Hraise & _).
  destruct (Hraise eq_refl) as (r' & _ & _ & _ & Hclose).
  exists r'. exact Hclose.
Defined.

(** X18: the connector of [draw_var_ref] is one polyline of five points in the
    colour of the state: from the source anchor level to a vertical rail,
    along the rail to one body line above the destination anchor, level to
    above the anchor, and down to it.  The rail is never right of
    [w - sect_padding / 2]; when both anchors are at least one section
    padding left of that bound, it runs one padding right of the anchor
    further to the right, so it crosses neither; otherwise it runs on the
    bound. *)
Theorem draw_var_ref_polyline {B : Backend} (state : VarState.t) (r : FrameRenderer)
    (c : Canvas) (x1 y1 x2 y2 : Q) (wd : World) :
  frame r = Some c -> last_var r = Some (x1, y1) -> ref_var r = Some (x2, y2) ->
  let pad := Config.sect_padding (cfg r) in
  let bound := (Config.w (cfg r) - pad / 2)%Q in
  let sh := inject_Z (snd (textsize (body_font r) " ")) in
  exists rail,
    draw_var_ref state r wd =
      (Ok tt,
       set_frame (Some (add_op c
         (DLine [(x1, y1); (rail, y1); (rail, y2 - sh)%Q; (x2, y2 - sh)%Q; (x2, y2)]
                (VarState.color state) 2))) r,
       wd) /\
    (rail <= bound)%Q /\
    ((x1 + pad <= bound)%Q -> (x2 + pad <= bound)%Q ->
     (x1 + pad <= rail)%Q /\ (x2 + pad <= rail)%Q /\
     (rail = (x1 + pad)%Q \/ rail = (x2 + pad)%Q)) /\
    ((bound < x1 + pad)%Q \/ (bound < x2 + pad)%Q -> rail = bound).
Proof.
  intros Hf Hl Hr pad bound sh.
  exists (Py.min (Py.max x1 x2 + pad)%Q bound).
  split.
  - rewrite (draw_var_ref_run state r c (x1, y1) (x2, y2) wd Hf Hl Hr).
    unfold connector, sh, pad, bound.
    destruct (textsize (body_font r) " ") as [sw sh']. reflexivity.
  - unfold Py.min, Py.max.
    destruct (Qle_bool x2 x1) eqn:Em.
    + apply Qle_bool_iff in Em.
      destruct (Qle_bool (x1 + pad) bound) eqn:Eb.
      * apply Qle_bool_iff in Eb. split; [exact Eb |]. split.
        -- intros _ _. split; [lra |]. split; [lra | left; reflexivity].
        -- intros [H | H]; lra.
      * assert (Hb : ~ (x1 + pad <= bound)%Q)
          by (intros H; apply Qle_bool_iff in H; congruence).
        split; [lra |]. split; [intros H; contradiction | intros _; reflexivity].
    + assert (Hm : ~ (x2 <= x1)%Q) by (intros H; apply Qle_bool_iff in H; congruence).
      destruct (Qle_bool (x2 + pad) bound) eqn:Eb.
      * apply Qle_bool_iff in Eb. split; [exact Eb |]. split.
        -- intros _ _. split; [lra |]. split; [lra | right; reflexivity].
        -- intros [H | H]; lra.
      * assert (Hb : ~ (x2 + pad <= bound)%Q)
          by (intros H; apply Qle_bool_iff in H; congruence).
        split; [lra |]. split; [intros _ H; contradiction | intros _; reflexivity].
Qed.

Lemma draw_var_ref_polyline_witness :
  exists rail r',
    @draw_var_ref Demo.backend Demo.ref_state
      (set_ref_var (1305, 430)%Q
         (set_last_var (1302, 100)%Q (Demo.started (Demo.config None 0 30 false)))) [] =
      (Ok tt, r', []) /\
    (rail = (1302 + 20)%Q \/ rail = (1305 + 20)%Q).
Proof.
  pose (r := set_ref_var (1305, 430)%Q
               (set_last_var (1302, 100)%Q (Demo.started (Demo.config None 0 30 false)))).
  destruct (frame r) as [c |] eqn:Ef; [| vm_compute in Ef; discriminate].
  destruct (@draw_var_ref_polyline Demo.backend Demo.ref_state r c
              1302 100 1305 430 [] Ef eq_refl eq_refl)
    as (rail & Hdraw & _ & Hin & _).
  destruct Hin as (_ & _ & Hrail); [vm_compute; discriminate | vm_compute; discriminate |].
  exists rail.
  exists (set_frame (Some (add_op c
            (DLine [(1302, 100); (rail, 100);
                    (rail, 430 - inject_Z (snd (@textsize Demo.backend (body_font r) " ")));
                    (1305, 430 - inject_Z (snd (@textsize Demo.backend (body_font r) " ")));
                    (1305, 430)]%Q
                   (VarState.color Demo.ref_state) 2))) r).
  split; [exact Hdraw | exact Hrail].
Defined.

(** ** The caption and the output panel *)

(** X19: [draw_exec] needs an open frame and nothing else: without one it raises
    [AttributeError] and changes nothing; with one it always returns,
    having drawn the caption once, in the caption font and with no colour
    given, its left edge at the section padding and its bottom edge one
    section padding above the output divider.  The sizes are not used, and
    the encoder sees nothing.  The caption counts "1 time" and otherwise
    "n times". *)
Theorem draw_exec_caption {B : Backend} (nr_times : Z) (cur avg total : string)
    (r : FrameRenderer) (wd : World) :
  let text := exec_text nr_times cur avg total in
  let rest := (" current time elapsed: " ++ cur ++ ", average: " ++ avg
                 ++ ", total: " ++ total)%string in
  (frame r = None -> draw_exec nr_times cur avg total r wd = (Raise AttributeError, r, wd)) /\
  (forall c, frame r = Some c ->
     exists y,
       draw_exec nr_times cur avg total r wd =
         (Ok tt,
          set_frame (Some (add_op c (DText (Config.sect_padding (cfg r), y) text
                                       (caption_font r) None))) r,
          wd) /\
       (y + inject_Z (snd (textsize (caption_font r) text)) ==
        Config.out_y (cfg r) - Config.sect_padding (cfg r))%Q) /\
  (nr_times = 1 -> text = ("Line executed 1 time " ++ Str.em_dash ++ rest)%string) /\
  (nr_times <> 1 ->
   text = ("Line executed " ++ Str.of_int nr_times ++ " times " ++ Str.em_dash ++ rest)%string).
Proof.
  intros text rest. split; [| split; [| split]].
  - intros Hf. unfold draw_exec, draw_textsize. run_m ltac:(rewrite ?Hf). reflexivity.
  - intros c Hf. unfold draw_exec, draw_textsize, draw_op, add_op. fold text.
    run_m ltac:(rewrite ?Hf).
    destruct (textsize (caption_font r) text) as [tw th].
    run_m ltac:(rewrite ?Hf). cbn [snd].
    eexists. split; [reflexivity |]. ring.
  - intros ->. reflexivity.
  - intros Hn. unfold text, exec_text. apply Z.eqb_neq in Hn. rewrite Hn. reflexivity.
Qed.

Lemma draw_exec_caption_witness :
  (exists r',
     @draw_exec Demo.backend 3 "1 ms" "2 ms" "6 ms"
       (Demo.started (Demo.config None 0 30 false)) [] = (Ok tt, r', [])) /\
  @draw_exec Demo.backend 3 "1 ms" "2 ms" "6 ms"
    (Demo.fresh (Demo.config None 0 30 false)) [] =
    (Raise AttributeError, Demo.fresh (Demo.config None 0 30 false), []).
Proof.
  pose (r := Demo.started (Demo.config None 0 30 false)).
  destruct (frame r) as [c |] eqn:Ef; [| vm_compute in Ef; discriminate].
  split.
  - destruct (proj1 (proj2 (@draw_exec_caption Demo.backend 3 "1 ms" "2 ms" "6 ms" r [])) c Ef)
      as (y & Hrun & _).
    exists (set_frame (Some (add_op c (DText (Config.sect_padding (cfg r), y)
                                         (exec_text 3 "1 ms" "2 ms" "6 ms")
                                         (caption_font r) None))) r).
    exact Hrun.
  - exact (proj1 (@draw_exec_caption Demo.backend 3 "1 ms" "2 ms" "6 ms"
                    (Demo.fresh (Demo.config None 0 30 false)) []) eq_refl).
Defined.

(** X20: whatever the row count, the lines [draw_output] keeps are an end piece
    of the lines it is given, and it always returns, writing them once.
    With a negative row count the slice [lines[-out_rows:]] starts at a
    positive index: the first [-out_rows] lines are dropped and all others
    kept, however many they are. *)
Theorem draw_output_keeps_a_suffix {B : Backend} (r : FrameRenderer) (wd : World)
    (c : Canvas) (z : Sizes) (lines : list string) :
  frame r = Some c ->
  sizes r = Some z ->
  exists dropped p,
    lines = dropped ++ output_lines (out_rows z) lines /\
    draw_output lines r wd =
      (Ok tt,
       set_frame (Some (add_op c
         (DPaint p (PWrite (Py.join Str.nl (output_lines (out_rows z) lines))
                      None false None)))) r,
       wd) /\
    (out_rows z < 0 ->
     List.length dropped =
       Z.to_nat (Z.min (- out_rows z) (Z.of_nat (List.length lines)))).
Proof.
  intros Hf Hs.
  set (k := Z.to_nat (Py.slice_index (Z.of_nat (List.length lines)) (- out_rows z))).
  exists (firstn k lines). eexists. split; [| split].
  - unfold output_lines, Py.slice_from. fold k. symmetry. apply firstn_skipn.
  - unfold draw_output, painter_write, painter_call, draw_op, add_op.
    run_m ltac:(rewrite ?Hs, ?Hf). reflexivity.
  - intros Hneg. rewrite length_firstn. unfold k, Py.slice_index.
    destruct (Z.ltb_spec (- out_rows z) 0); lia.
Qed.

Lemma draw_output_keeps_a_suffix_witness :
  exists dropped,
    ["1"; "2"; "3"]%string =
      dropped ++ output_lines (-2) ["1"; "2"; "3"]%string /\
    List.length dropped = 2%nat.
Proof.
  pose (z := {| line_height := 22; body_cols := 124; _body_rows := 36; body_rows := 36;
                out_x := 20; out_y := 934; out_cols := 124; out_rows := -2;
                vars_x := 1300; vars_y := 70; vars_cols := 60; vars_rows := 13;
                ovars_x := 1300; ovars_y := 430; ovars_cols := 60; ovars_rows := 30 |}).
  pose (r := set_sizes z (Demo.started (Demo.config None 0 30 false))).
  destruct (frame r) as [c |] eqn:Ef; [| vm_compute in Ef; discriminate].
  destruct (@draw_output_keeps_a_suffix Demo.backend r [] c z ["1"; "2"; "3"]%string
              Ef eq_refl) as (dropped & p & Hsplit & _ & Hlen).
  exists dropped. split; [exact Hsplit |].
  rewrite Hlen; [reflexivity | reflexivity].
Defined.

(** X21: [draw_watermark] on an open frame always returns, having drawn the
    watermark text once, in the caption font and the watermark colour, with
    its right edge one section padding from the right border of the video
    and its bottom edge one section padding from the bottom, whatever the
    frame shows there.  Without a frame it raises [AttributeError].  The
    encoder sees nothing either way. *)
Theorem draw_watermark_corner {B : Backend} (r : FrameRenderer) (wd : World) :
  (frame r = None -> draw_watermark r wd = (Raise AttributeError, r, wd)) /\
  (forall c, frame r = Some c ->
     exists x y,
       draw_watermark r wd =
         (Ok tt,
          set_frame (Some (add_op c (DText (x, y) WATERMARK (caption_font r)
                                       (Some (Config.fg_watermark (cfg r)))))) r,
          wd) /\
       watermark_op r =
         DText (x, y) WATERMARK (caption_font r) (Some (Config.fg_watermark (cfg r))) /\
       (x + inject_Z (fst (textsize (caption_font r) WATERMARK)) ==
        Config.w (cfg r) - Config.sect_padding (cfg r))%Q /\
       (y + inject_Z (snd (textsize (caption_font r) WATERMARK)) ==
        Config.h (cfg r) - Config.sect_padding (cfg r))%Q).
Proof.
  split.
  - intros Hf. unfold draw_watermark, draw_textsize. run_m ltac:(rewrite ?Hf). reflexivity.
  - intros c Hf. unfold draw_watermark, draw_textsize, draw_op, add_op, watermark_op.
    run_m ltac:(rewrite ?Hf).
    destruct (textsize (caption_font r) WATERMARK) as [ww wh].
    run_m ltac:(rewrite ?Hf). cbn [fst snd].
    eexists. eexists. split; [reflexivity |]. split; [reflexivity |]. split; ring.
Qed.

Lemma draw_watermark_corner_witness :
  exists x y,
    @watermark_op Demo.backend (Demo.started (Demo.config None 0 30 true)) =
      DText (x, y) WATERMARK (Demo.font 16) (Some (RGBA 90 90 90 255)) /\
    (x + 152 == 1900)%Q /\ (y + 16 == 1060)%Q.
Proof.
  pose (r := Demo.started (Demo.config None 0 30 true)).
  destruct (frame r) as [c |] eqn:Ef; [| vm_compute in Ef; discriminate].
  destruct (proj2 (@draw_watermark_corner Demo.backend r []) c Ef)
    as (x & y & _ & Hop & Hx & Hy).
  exists x, y. vm_compute in Hop, Hx, Hy. vm_compute.
  split; [exact Hop |]. split; [exact Hx | exact Hy].
Defined.
